(** * Sui native bridge: message encoding, committee verification, token treasury

    A shallow embedding of the Move modules [bridge::committee],
    [bridge::treasury] (both revisions) and [sui::sui] together with the byte
    layout of a bridge message that the EVM side pins down in
    [BridgeConfigTest.t.sol].  Move functions become
    Rocq functions in an error monad (an abort ends the call), [u64] values are
    integers with the overflow abort written out, and the framework
    collections ([VecMap], [VecSet], [Bag], [ObjectBag]) are modelled by
    association lists and finite maps. *)

From Stdlib Require Import ZArith Lia.
From stdpp Require Import base option list gmap strings fin_maps.

Open Scope Z_scope.

(** ** Execution results *)

(** How a Move call ends abnormally: an [abort] with the module that raised it
    and its code, an arithmetic fault ([u64] overflow), or, for the loop model
    only, exhausted fuel. *)
Inductive error : Type :=
  | MoveAbort (location : string) (code : Z)
  | ArithmeticError
  | OutOfFuel.

Inductive result (A : Type) : Type :=
  | Ok (a : A)
  | Abort (e : error).
Arguments Ok {A} a.
Arguments Abort {A} e.

#[global] Instance result_ret : MRet result := fun _ a => Ok a.
#[global] Instance result_bind : MBind result :=
  fun _ _ f m => match m with Ok a => f a | Abort e => Abort e end.
#[global] Instance result_fmap : FMap result :=
  fun _ _ f m => match m with Ok a => Ok (f a) | Abort e => Abort e end.

(** [assert!(cond, code)] inside the module [loc]. *)
Definition assert (cond : bool) (loc : string) (code : Z) : result unit :=
  if cond then Ok tt else Abort (MoveAbort loc code).

Definition is_ok {A} (r : result A) : bool :=
  match r with Ok _ => true | Abort _ => false end.

(** ** Unsigned 64-bit arithmetic *)

Definition MAX_U64 : Z := 18446744073709551615.

Definition in_u64 (x : Z) : Prop := 0 <= x <= MAX_U64.

(** Move aborts a transaction on overflow instead of wrapping. *)
Definition add_u64 (a b : Z) : result Z :=
  if a + b <=? MAX_U64 then Ok (a + b) else Abort ArithmeticError.

Definition mul_u64 (a b : Z) : result Z :=
  if a * b <=? MAX_U64 then Ok (a * b) else Abort ArithmeticError.

(** ** Bytes and hexadecimal text *)

Fixpoint bytes_of_string (s : string) : list Z :=
  match s with
  | EmptyString => []
  | String c rest => Z.of_nat (Ascii.nat_of_ascii c) :: bytes_of_string rest
  end.

Definition hex_digit (c : Ascii.ascii) : option Z :=
  let n := Z.of_nat (Ascii.nat_of_ascii c) in
  if (48 <=? n) && (n <=? 57) then Some (n - 48)
  else if (97 <=? n) && (n <=? 102) then Some (n - 87)
  else if (65 <=? n) && (n <=? 70) then Some (n - 55)
  else None.

(** [hex"..."] literals of the Solidity test and [hex::decode] of the Move
    tests: two digits per byte, [None] on an odd length or a bad digit. *)
Fixpoint hex_decode (s : string) : option (list Z) :=
  match s with
  | EmptyString => Some []
  | String hi (String lo rest) =>
      h ← hex_digit hi; l ← hex_digit lo; bs ← hex_decode rest;
      Some ((16 * h + l) :: bs)
  | String _ EmptyString => None
  end.

(** Big-endian value of a byte string. *)
Definition be_value (bs : list Z) : Z :=
  fold_left (fun acc b => 256 * acc + b) bs 0.

(** ** [sui::vec_map] and [sui::vec_set] *)

Module vec_map.

Definition location : string := "sui::vec_map".
Definition EKeyAlreadyExists : Z := 0.
Definition EKeyDoesNotExist : Z := 1.

Section VecMap.
Context {K V : Type} `{EqDecision K}.

(** Modelled from the spec: [sui::vec_map] is not among the sources.  A
    [VecMap] is a vector of entries searched front to back; a lookup of an
    absent key and an insertion of a present key abort, which is what the
    spec's "every lookup failure is fatal to the call" relies on. *)
Definition VecMap : Type := list (K * V).

Definition empty : VecMap := [].

Fixpoint get_idx_opt (self : VecMap) (key : K) : option nat :=
  match self with
  | [] => None
  | (k, _) :: rest =>
      if decide (k = key) then Some 0%nat else S <$> get_idx_opt rest key
  end.

Definition contains (self : VecMap) (key : K) : bool :=
  match get_idx_opt self key with Some _ => true | None => false end.

Definition get_idx (self : VecMap) (key : K) : result nat :=
  match get_idx_opt self key with
  | Some idx => Ok idx
  | None => Abort (MoveAbort location EKeyDoesNotExist)
  end.

(** Modelled from the spec: [vec_map::insert] (outside the sources) appends
    the entry and aborts on a key that is already there. *)
Definition insert (self : VecMap) (key : K) (value : V) : result VecMap :=
  _ ← assert (negb (contains self key)) location EKeyAlreadyExists;
  Ok (self ++ [(key, value)]).

(** Modelled from the spec: [vec_map::try_get] (outside the sources), the
    value under the key if there is one. *)
Definition try_get (self : VecMap) (key : K) : option V :=
  idx ← get_idx_opt self key; snd <$> (self !! idx).

(** Modelled from the spec: [vec_map::get] (outside the sources); a lookup
    failure is fatal to the call. *)
Definition get (self : VecMap) (key : K) : result V :=
  match try_get self key with
  | Some v => Ok v
  | None => Abort (MoveAbort location EKeyDoesNotExist)
  end.

(** Modelled from the spec: [vec_map::get_mut] (outside the sources) and a
    write through the reference it hands out: the value under [key] is
    replaced by [f] of it; a missing key aborts. *)
Definition update (self : VecMap) (key : K) (f : V → V) : result VecMap :=
  idx ← get_idx self key;
  Ok (alter (fun e : K * V => (e.1, f e.2)) idx self).

Definition keys (self : VecMap) : list K := self.*1.
End VecMap.
Arguments VecMap : clear implicits.

End vec_map.

Module vec_set.

Definition location : string := "sui::vec_set".
Definition EKeyAlreadyExists : Z := 0.

Section VecSet.
Context {K : Type} `{EqDecision K}.

(** Modelled from the spec: [sui::vec_set] is not among the sources.  The
    "seen" set of the verification loop: a vector without repetitions,
    scanned linearly. *)
Definition VecSet : Type := list K.

Definition empty : VecSet := [].
Definition size (self : VecSet) : nat := length self.
Definition contains (self : VecSet) (key : K) : bool :=
  bool_decide (key ∈ self).
(** Modelled from the spec: [vec_set::insert] (outside the sources) aborts on
    a key that is already in the set. *)
Definition insert (self : VecSet) (key : K) : result VecSet :=
  _ ← assert (negb (contains self key)) location EKeyAlreadyExists;
  Ok (self ++ [key]).
End VecSet.
Arguments VecSet : clear implicits.

End vec_set.

(** ** Bridge messages and their byte layout *)

Module message_types.
(** Modelled from the spec: [bridge::message_types] is not among the sources;
    the tag of a token transfer is the first of the message types. *)
Definition token : Z := 0.
End message_types.

Module message.

(** The message struct, with the field names the Solidity test uses when it
    builds a [BridgeUtils.Message]. *)
Record BridgeMessage : Type := {
  messageType : Z;
  version : Z;
  nonce : Z;
  chainID : Z;
  payload : list Z
}.

Definition message_type (m : BridgeMessage) : Z := messageType m.

Definition u8_bytes (x : Z) : list Z := [Z.land x 255].

Definition u64_be_bytes (x : Z) : list Z :=
  [ Z.land (Z.shiftr x 56) 255; Z.land (Z.shiftr x 48) 255;
    Z.land (Z.shiftr x 40) 255; Z.land (Z.shiftr x 32) 255;
    Z.land (Z.shiftr x 24) 255; Z.land (Z.shiftr x 16) 255;
    Z.land (Z.shiftr x 8) 255;  Z.land x 255 ].

(** Modelled from the spec: [message::serialise_message] is not among the
    sources.  Section 4.1: message type (1 byte), version (1 byte), nonce
    (8 bytes, big-endian), source chain id (1 byte), then the payload as it
    is, with no length field. *)
Definition serialise_message (m : BridgeMessage) : list Z :=
  u8_bytes (messageType m) ++ u8_bytes (version m) ++
  u64_be_bytes (nonce m) ++ u8_bytes (chainID m) ++ payload m.

End message.

(** ** Transaction context and hexadecimal literals *)

Module tx_context.
(** What the modules read of the transaction: who sent it and the epoch. *)
Record TxContext : Type := {
  sender : Z;
  epoch : Z
}.
End tx_context.

Module hex.
Definition location : string := "sui::hex".
Definition ENotValidHexCharacter : Z := 1.
(** Modelled from the spec: [sui::hex] is not among the sources.
    [hex::decode] reads two digits per byte and aborts on anything else. *)
Definition decode (s : string) : result (list Z) :=
  match hex_decode s with
  | Some bs => Ok bs
  | None => Abort (MoveAbort location ENotValidHexCharacter)
  end.
End hex.

(** ** [bridge::committee] *)

Module ecdsa_k1.
(** The type of [ecdsa_k1::secp256k1_ecrecover(signature, msg, hash)], a
    native function: the recovered public key, or an abort. *)
Definition ecrecover : Type := list Z → list Z → Z → result (list Z).
End ecdsa_k1.

Module vector.
Definition location : string := "std::vector".
Definition EINDEX_OUT_OF_BOUNDS : Z := 131072.
Definition borrow {A} (v : list A) (i : nat) : result A :=
  match v !! i with
  | Some x => Ok x
  | None => Abort (MoveAbort location EINDEX_OUT_OF_BOUNDS)
  end.
End vector.

Module committee.

Definition location : string := "bridge::committee".
Definition ESignatureBelowThreshold : Z := 0.
Definition EDuplicatedSignature : Z := 1.
Definition EInvalidSignature : Z := 2.
Definition ENotSystemAddress : Z := 3.

Definition SUI_MESSAGE_PREFIX : list Z := bytes_of_string "SUI_BRIDGE_MESSAGE".

Record BridgeCommittee : Type := {
  (* committee public keys and their weights *)
  pub_keys : vec_map.VecMap (list Z) Z;
  (* threshold for each message type *)
  thresholds : vec_map.VecMap Z Z
}.

(** The committee of the module's tests: two members of weight 100 and a
    threshold of 200 for token messages. *)
Definition test_key_1 : list Z :=
  default [] (hex_decode "029bef8d556d80e43ae7e0becb3a7e6838b95defe45896ed6075bb9035d06c9964").
Definition test_key_2 : list Z :=
  default [] (hex_decode "033e99a541db69bd32040dfe5037fbf5210dafa8151a71e21c5204b05d95ce0a62").

Definition setup_test : BridgeCommittee :=
  {| pub_keys := [(test_key_1, 100); (test_key_2, 100)];
     thresholds := [(message_types.token, 200)] |}.

(** The bytes a member signs: the prefix, then the serialised message. *)
Definition message_bytes (m : message.BridgeMessage) : list Z :=
  SUI_MESSAGE_PREFIX ++ message.serialise_message m.

Section Verify.
Variable secp256k1_ecrecover : ecdsa_k1.ecrecover.

(** The variables of the [while] loop. *)
Record loop_state : Type := {
  i : nat;
  seen_pub_key : vec_set.VecSet (list Z);
  threshold : Z
}.

Definition loop_body (self : BridgeCommittee) (signatures : list (list Z))
    (msg_bytes : list Z) (st : loop_state) : result loop_state :=
  signature ← vector.borrow signatures (i st);
  pubkey ← secp256k1_ecrecover signature msg_bytes 0;
  (* check duplicate *)
  _ ← assert (negb (vec_set.contains (seen_pub_key st) pubkey))
        location EDuplicatedSignature;
  (* make sure the key is part of the committee *)
  _ ← assert (vec_map.contains (pub_keys self) pubkey) location EInvalidSignature;
  weight ← vec_map.get (pub_keys self) pubkey;
  threshold' ← add_u64 (threshold st) weight;
  seen' ← vec_set.insert (seen_pub_key st) pubkey;
  Ok {| i := S (i st); seen_pub_key := seen'; threshold := threshold' |}.

(** [while (vec_set::size(&seen_pub_key) < signature_counts) { ... }] *)
Fixpoint verify_loop (fuel : nat) (self : BridgeCommittee)
    (signatures : list (list Z)) (msg_bytes : list Z) (st : loop_state)
    : result loop_state :=
  if (vec_set.size (seen_pub_key st) <? length signatures)%nat then
    match fuel with
    | O => Abort OutOfFuel
    | S fuel' =>
        st' ← loop_body self signatures msg_bytes st;
        verify_loop fuel' self signatures msg_bytes st'
    end
  else Ok st.

Definition verify_signatures (self : BridgeCommittee)
    (message : message.BridgeMessage) (signatures : list (list Z)) : result unit :=
  let signature_counts := length signatures in
  required_threshold ←
    vec_map.get (thresholds self) (message.message_type message);
  st ← verify_loop signature_counts self signatures (message_bytes message)
         {| i := 0; seen_pub_key := vec_set.empty; threshold := 0 |};
  assert (required_threshold <=? threshold st) location ESignatureBelowThreshold.

(** *** What the loop computes *)

(** The loop as a recursion over the signatures still to be read. *)
Fixpoint tally (self : BridgeCommittee) (msg_bytes : list Z)
    (signatures : list (list Z)) (seen : list (list Z)) (acc : Z) : result Z :=
  match signatures with
  | [] => Ok acc
  | signature :: rest =>
      pubkey ← secp256k1_ecrecover signature msg_bytes 0;
      _ ← assert (negb (vec_set.contains seen pubkey)) location EDuplicatedSignature;
      _ ← assert (vec_map.contains (pub_keys self) pubkey) location EInvalidSignature;
      weight ← vec_map.get (pub_keys self) pubkey;
      acc' ← add_u64 acc weight;
      tally self msg_bytes rest (seen ++ [pubkey]) acc'
  end.

(** [signatures] recover, one by one, to [keys]. *)
Definition recovers_to (message : message.BridgeMessage)
    (signatures keys : list (list Z)) : Prop :=
  Forall2 (fun s k => secp256k1_ecrecover s (message_bytes message) 0 = Ok k)
          signatures keys.

End Verify.

Definition is_member (self : BridgeCommittee) (key : list Z) : bool :=
  vec_map.contains (pub_keys self) key.

Definition weight_of (self : BridgeCommittee) (key : list Z) : Z :=
  default 0 (vec_map.try_get (pub_keys self) key).

Definition total_weight (self : BridgeCommittee) (keys : list (list Z)) : Z :=
  foldr (fun k acc => weight_of self k + acc) 0 keys.

(** The weight the distinct committee members among [keys] carry. *)
Definition distinct_member_weight (self : BridgeCommittee)
    (keys : list (list Z)) : Z :=
  total_weight self (filter (fun k => is_member self k = true) (remove_dups keys)).

(** Every weight is a [u64]. *)
Definition weights_u64 (self : BridgeCommittee) : Prop :=
  Forall (fun e => in_u64 e.2) (pub_keys self).

(** The genesis committee, which only the system address may create. *)
Definition create (ctx : tx_context.TxContext) : result BridgeCommittee :=
  _ ← assert (tx_context.sender ctx =? 0) location ENotSystemAddress;
  (* Hardcoded genesis committee *)
  let pub_keys := vec_map.empty in
  key_1 ← hex.decode "029bef8d556d80e43ae7e0becb3a7e6838b95defe45896ed6075bb9035d06c9964";
  pub_keys ← vec_map.insert pub_keys key_1 10;
  key_2 ← hex.decode "033e99a541db69bd32040dfe5037fbf5210dafa8151a71e21c5204b05d95ce0a62";
  pub_keys ← vec_map.insert pub_keys key_2 10;
  let thresholds := vec_map.empty in
  thresholds ← vec_map.insert thresholds message_types.token 10;
  Ok {| pub_keys := pub_keys; thresholds := thresholds |}.

End committee.

Module BridgeUtils.

(** Modelled from the spec: [BridgeUtils.UPDATE_TOKEN_PRICES] is declared
    outside the sources and the specification names the type without
    numbering it; 4 is the type byte that the regression test expects behind
    the tag. *)
Definition UPDATE_TOKEN_PRICES : Z := 4.

(** Modelled from the spec: [BridgeUtils.encodeMessage] is not among the
    sources.  Section 4.1: the domain tag, then message type, version, nonce
    (big-endian), chain id and payload, which are the bytes
    [committee::verify_signatures] recovers keys from. *)
Definition encodeMessage (m : message.BridgeMessage) : list Z :=
  committee.SUI_MESSAGE_PREFIX ++ message.serialise_message m.

(** The message of [testUpdateTokenPricesRegressionTest] and the bytes the
    test expects. *)
Definition regression_payload : list Z :=
  default [] (hex_decode "01000000003b9aca00").

Definition regression_message : message.BridgeMessage :=
  {| message.messageType := UPDATE_TOKEN_PRICES; message.version := 1;
     message.nonce := 266; message.chainID := 3;
     message.payload := regression_payload |}.

Definition expectedEncodedMessage : option (list Z) :=
  hex_decode "5355495f4252494447455f4d4553534147450401000000000000010a0301000000003b9aca00".

End BridgeUtils.

(** ** Framework pieces the treasury calls *)

Module math.
(** Modelled from the spec: [sui::math] is not among the sources.
    [pow(base, exponent)] by repeated squaring in [u64]; a product that does
    not fit aborts the call.  Every round lowers the exponent, so [exponent]
    rounds of fuel are enough. *)
Fixpoint pow_loop (fuel : nat) (base exponent res : Z) : result Z :=
  if 1 <=? exponent then
    match fuel with
    | O => Abort OutOfFuel
    | S fuel' =>
        if exponent mod 2 =? 0 then
          base' ← mul_u64 base base;
          pow_loop fuel' base' (exponent / 2) res
        else
          res' ← mul_u64 res base;
          pow_loop fuel' base (exponent - 1) res'
    end
  else Ok res.

Definition pow (base exponent : Z) : result Z :=
  pow_loop (Z.to_nat exponent) base exponent 1.

(** The powers of ten for every [u8] exponent. *)
Definition pow10_table : list (Z * result Z) :=
  map (fun d => (d, pow 10 d)) (map Z.of_nat (seq 0 256)).
End math.

Module type_name.
(** Modelled from the spec: [std::type_name] is not among the sources.  A
    [TypeName] wraps the canonical string of a type, which for a struct is
    the 64 hex digits of its package address, then [::module::Name]. *)
Abbreviation TypeName := string (only parsing).
Definition into_string (t : TypeName) : string := t.
Definition get_address (t : TypeName) : string := String.substring 0 64 t.
End type_name.

Module address.
Definition location : string := "sui::address".
Definition EAddressParseError : Z := 0.
(** Modelled from the spec: [sui::address] is not among the sources.  The
    address written by 64 hex digits, as a number. *)
Definition from_ascii_bytes (s : string) : result Z :=
  match hex_decode s with
  | Some bs =>
      if (length bs =? 32)%nat then Ok (be_value bs)
      else Abort (MoveAbort location EAddressParseError)
  | None => Abort (MoveAbort location EAddressParseError)
  end.
End address.

Module package.
Record UpgradeCap : Type := {
  cap_id : Z;
  (* address of the package the capability upgrades *)
  upgrade_package : Z
}.
End package.

Module balance.
Definition location : string := "sui::balance".
Definition EOverflow : Z := 1.
(** Modelled from the spec: [balance::increase_supply] is not among the
    sources.  The supply grows by the value handed out and must stay below
    the largest [u64]. *)
Definition increase_supply (self value : Z) : result (Z * Z) :=
  _ ← assert (value <? MAX_U64 - self) location EOverflow;
  Ok (self + value, value).
End balance.

Module coin.
(** Modelled from the spec: [sui::coin] is not among the sources.  A treasury
    capability carries the supply minted so far; minting raises it by the
    amount of the new coin and burning lowers it by the value of the coin
    burnt, within [u64]. *)
Record TreasuryCap : Type := { total_supply : Z }.
Record Coin : Type := { value : Z }.
Record CoinMetadata : Type := { decimals : Z }.

Definition get_decimals (metadata : CoinMetadata) : Z := decimals metadata.

(** Modelled from the spec: [coin::mint] (outside the sources) returns a coin
    of the requested amount and adds it to the supply, which must stay below
    the largest [u64]. *)
Definition mint (cap : TreasuryCap) (amount : Z) : result (TreasuryCap * Coin) :=
  _ ← assert (amount <? MAX_U64 - total_supply cap) balance.location balance.EOverflow;
  Ok ({| total_supply := total_supply cap + amount |}, {| value := amount |}).

(** Modelled from the spec: [coin::burn] (outside the sources) takes the
    value of the coin off the supply. *)
Definition burn (cap : TreasuryCap) (c : Coin) : result (TreasuryCap * Z) :=
  _ ← assert (value c <=? total_supply cap) balance.location balance.EOverflow;
  Ok ({| total_supply := total_supply cap - value c |}, value c).

(** Modelled from the spec: [coin::create_currency] and
    [coin::treasury_into_supply] are not among the sources.  A new currency
    starts with nothing minted and records its decimals. *)
Definition create_currency (decimals : Z) : TreasuryCap * CoinMetadata :=
  ({| total_supply := 0 |}, {| decimals := decimals |}).
Definition treasury_into_supply (treasury : TreasuryCap) : Z := total_supply treasury.
End coin.

Module dynamic_field.
Definition location : string := "sui::dynamic_field".
Definition EFieldAlreadyExists : Z := 0.
Definition EFieldDoesNotExist : Z := 1.
End dynamic_field.

Module bag.
Section Bag.
Context {K V : Type} `{Countable K}.
(** Modelled from the spec: [sui::bag] and [sui::object_bag] are not among the
    sources.  A bag holds at most one value per key; adding under a key in
    use aborts and so do removing and borrowing under a key that is not
    there (the "not found" of the spec). *)
Definition add (b : gmap K V) (k : K) (v : V) : result (gmap K V) :=
  match b !! k with
  | Some _ => Abort (MoveAbort dynamic_field.location dynamic_field.EFieldAlreadyExists)
  | None => Ok (<[k := v]> b)
  end.

(** Modelled from the spec: [bag::remove] (outside the sources); removing
    what is not there fails with "not found". *)
Definition remove (b : gmap K V) (k : K) : result (V * gmap K V) :=
  match b !! k with
  | Some v => Ok (v, delete k b)
  | None => Abort (MoveAbort dynamic_field.location dynamic_field.EFieldDoesNotExist)
  end.

End Bag.
End bag.

Module object_bag.
Section ObjectBag.
Context {K V : Type} `{Countable K}.
(** Modelled from the spec: [object_bag::add] (outside the sources), as
    [bag::add] for objects. *)
Definition add (b : gmap K V) (k : K) (v : V) : result (gmap K V) := bag.add b k v.

(** Modelled from the spec: the index [bag[k]] of an [ObjectBag] (outside the
    sources) borrows the object under [k] and aborts when there is none. *)
Definition borrow_mut (b : gmap K V) (k : K) : result V :=
  match b !! k with
  | Some v => Ok v
  | None => Abort (MoveAbort dynamic_field.location dynamic_field.EFieldDoesNotExist)
  end.
End ObjectBag.
End object_bag.

(** ** [bridge::treasury] *)

Module treasury.

Definition location : string := "bridge::treasury".
Definition EUnsupportedTokenType : Z := 0.
Definition EInvalidUpgradeCap : Z := 1.
Definition ETokenSupplyNonZero : Z := 2.

Definition USD_VALUE_MULTIPLIER : Z := 10000.

Record BridgeTokenMetadata : Type := {
  id : Z;
  decimal_multiplier : Z;
  notional_value : Z;
  native_token : bool
}.

Record ForeignTokenRegistration : Type := {
  type_name : type_name.TypeName;
  uc : package.UpgradeCap;
  decimal : Z
}.

Record BridgeTreasury : Type := {
  (* token treasuries, the TreasuryCaps of native bridge V1 *)
  treasuries : gmap string coin.TreasuryCap;
  supported_tokens : vec_map.VecMap type_name.TypeName BridgeTokenMetadata;
  (* token id to type name *)
  id_token_type_map : vec_map.VecMap Z type_name.TypeName;
  (* new tokens waiting to be approved *)
  waiting_room : gmap string ForeignTokenRegistration
}.

Inductive Event : Type :=
  | UpdateTokenPriceEvent (token_id new_price : Z)
  | NewTokenEvent (token_id : Z) (type_name : type_name.TypeName) (native_token : bool)
  | TokenRegistrationEvent (type_name : type_name.TypeName) (decimal : Z)
      (native_token : bool).

(** What a call leaves behind besides the treasury: events, in order, and
    objects frozen for good. *)
Inductive Effect : Type :=
  | emit (e : Event)
  | public_freeze_object (cap : package.UpgradeCap).

Definition register_foreign_token (T : type_name.TypeName) (self : BridgeTreasury)
    (tc : coin.TreasuryCap) (uc : package.UpgradeCap)
    (metadata : coin.CoinMetadata) : result (BridgeTreasury * list Effect) :=
  (* Make sure TreasuryCap has not been minted before. *)
  _ ← assert (coin.total_supply tc =? 0) location ETokenSupplyNonZero;
  let type_name := T in
  coin_address ← address.from_ascii_bytes (type_name.get_address type_name);
  (* Make sure upgrade cap is for the Coin package *)
  _ ← assert (package.upgrade_package uc =? coin_address) location EInvalidUpgradeCap;
  let registration :=
    {| type_name := type_name; uc := uc; decimal := coin.get_decimals metadata |} in
  waiting_room' ←
    bag.add (waiting_room self) (type_name.into_string type_name) registration;
  treasuries' ← object_bag.add (treasuries self) type_name tc;
  Ok ({| treasuries := treasuries';
         supported_tokens := supported_tokens self;
         id_token_type_map := id_token_type_map self;
         waiting_room := waiting_room' |},
      [emit (TokenRegistrationEvent type_name (coin.get_decimals metadata) false)]).

Definition approve_new_token (self : BridgeTreasury) (token_name : string)
    (token_id : Z) (native_token : bool) (notional_value : Z)
    : result (BridgeTreasury * list Effect) :=
  if negb native_token then
    '(registration, waiting_room') ← bag.remove (waiting_room self) token_name;
    multiplier ← math.pow 10 (decimal registration);
    supported_tokens' ←
      vec_map.insert (supported_tokens self) (type_name registration)
        {| id := token_id; decimal_multiplier := multiplier;
           notional_value := notional_value; native_token := native_token |};
    id_token_type_map' ←
      vec_map.insert (id_token_type_map self) token_id (type_name registration);
    Ok ({| treasuries := treasuries self;
           supported_tokens := supported_tokens';
           id_token_type_map := id_token_type_map';
           waiting_room := waiting_room' |},
        [ (* Freeze upgrade cap to prevent changes to the coin *)
          public_freeze_object (uc registration);
          emit (NewTokenEvent token_id (type_name registration) native_token) ])
  else
    (* Not implemented for V1 *)
    Ok (self, []).

Definition create : BridgeTreasury :=
  {| treasuries := ∅; supported_tokens := vec_map.empty;
     id_token_type_map := vec_map.empty; waiting_room := ∅ |}.

Definition burn (T : type_name.TypeName) (self : BridgeTreasury) (token : coin.Coin)
    : result (BridgeTreasury * list Effect) :=
  treasury ← object_bag.borrow_mut (treasuries self) T;
  '(treasury', _) ← coin.burn treasury token;
  Ok ({| treasuries := <[T := treasury']> (treasuries self);
         supported_tokens := supported_tokens self;
         id_token_type_map := id_token_type_map self;
         waiting_room := waiting_room self |}, []).

Definition mint (T : type_name.TypeName) (self : BridgeTreasury) (amount : Z)
    : result (coin.Coin * BridgeTreasury) :=
  treasury ← object_bag.borrow_mut (treasuries self) T;
  '(treasury', c) ← coin.mint treasury amount;
  Ok (c, {| treasuries := <[T := treasury']> (treasuries self);
            supported_tokens := supported_tokens self;
            id_token_type_map := id_token_type_map self;
            waiting_room := waiting_room self |}).

Definition set_notional_value (new_usd_price : Z) (metadata : BridgeTokenMetadata)
    : BridgeTokenMetadata :=
  {| id := id metadata; decimal_multiplier := decimal_multiplier metadata;
     notional_value := new_usd_price; native_token := native_token metadata |}.

Definition update_asset_notional_price (self : BridgeTreasury) (token_id : Z)
    (new_usd_price : Z) : result (BridgeTreasury * list Effect) :=
  let type_name := vec_map.try_get (id_token_type_map self) token_id in
  _ ← assert (bool_decide (is_Some type_name)) location EUnsupportedTokenType;
  match type_name with
  | Some type_name =>
      supported_tokens' ←
        vec_map.update (supported_tokens self) type_name
          (set_notional_value new_usd_price);
      Ok ({| treasuries := treasuries self;
             supported_tokens := supported_tokens';
             id_token_type_map := id_token_type_map self;
             waiting_room := waiting_room self |},
          [emit (UpdateTokenPriceEvent token_id new_usd_price)])
  | None => Abort (MoveAbort "std::option" 262145)
  end.

Definition get_token_metadata (T : type_name.TypeName) (self : BridgeTreasury)
    : result BridgeTokenMetadata :=
  let metadata := vec_map.try_get (supported_tokens self) T in
  _ ← assert (bool_decide (is_Some metadata)) location EUnsupportedTokenType;
  match metadata with
  | Some metadata => Ok metadata
  | None => Abort (MoveAbort "std::option" 262145)
  end.

Definition token_id (T : type_name.TypeName) (self : BridgeTreasury) : result Z :=
  metadata ← get_token_metadata T self;
  Ok (id metadata).

(** [decimal_multiplier<T>] and [notional_value<T>]; the names of the fields
    they read are taken by the record. *)
Definition get_decimal_multiplier (T : type_name.TypeName) (self : BridgeTreasury)
    : result Z :=
  metadata ← get_token_metadata T self;
  Ok (decimal_multiplier metadata).

Definition get_notional_value (T : type_name.TypeName) (self : BridgeTreasury)
    : result Z :=
  metadata ← get_token_metadata T self;
  Ok (notional_value metadata).

(** The ledger keeps the state of a call that returns and drops that of a
    call that aborts. *)
Definition commit (self : BridgeTreasury) (r : result (BridgeTreasury * list Effect))
    : BridgeTreasury * list Effect :=
  match r with
  | Ok after => after
  | Abort _ => (self, [])
  end.

(** The treasuries the module's functions can build, starting from [create]. *)
Inductive reachable : BridgeTreasury → Prop :=
  | reach_create : reachable create
  | reach_register T self tc uc metadata self' effects :
      reachable self →
      register_foreign_token T self tc uc metadata = Ok (self', effects) →
      reachable self'
  | reach_approve self token_name token_id native notional self' effects :
      reachable self →
      approve_new_token self token_name token_id native notional = Ok (self', effects) →
      reachable self'
  | reach_update self token_id new_usd_price self' effects :
      reachable self →
      update_asset_notional_price self token_id new_usd_price = Ok (self', effects) →
      reachable self'
  | reach_burn T self token self' effects :
      reachable self →
      burn T self token = Ok (self', effects) →
      reachable self'
  | reach_mint T self amount c self' :
      reachable self →
      mint T self amount = Ok (c, self') →
      reachable self'.

(** What the module keeps true of its treasury. *)
Record invariant (self : BridgeTreasury) : Prop := {
  waiting_own_key : ∀ k registration,
    waiting_room self !! k = Some registration → type_name registration = k;
  waiting_has_cap : ∀ k,
    is_Some (waiting_room self !! k) → is_Some (treasuries self !! k);
  supported_has_cap : ∀ T,
    T ∈ vec_map.keys (supported_tokens self) → is_Some (treasuries self !! T);
  waiting_not_supported : ∀ k,
    is_Some (waiting_room self !! k) → k ∉ vec_map.keys (supported_tokens self);
  ids_supported : ∀ token_id T,
    (token_id, T) ∈ id_token_type_map self →
    T ∈ vec_map.keys (supported_tokens self);
  all_foreign : ∀ T metadata,
    (T, metadata) ∈ supported_tokens self → native_token metadata = false;
  supported_NoDup : NoDup (vec_map.keys (supported_tokens self));
  ids_NoDup : NoDup (vec_map.keys (id_token_type_map self))
}.


(** One call of the module that returns. *)
Inductive step : BridgeTreasury → BridgeTreasury → Prop :=
  | step_register T self tc uc metadata self' effects :
      register_foreign_token T self tc uc metadata = Ok (self', effects) →
      step self self'
  | step_approve self token_name token_id native notional self' effects :
      approve_new_token self token_name token_id native notional = Ok (self', effects) →
      step self self'
  | step_update self token_id new_usd_price self' effects :
      update_asset_notional_price self token_id new_usd_price = Ok (self', effects) →
      step self self'
  | step_burn T self token self' effects :
      burn T self token = Ok (self', effects) →
      step self self'
  | step_mint T self amount c self' :
      mint T self amount = Ok (c, self') →
      step self self'.

(** The id map and the metadata name the same pairs of id and type. *)
Definition ids_agree (self : BridgeTreasury) : Prop :=
  ∀ token_id T,
    (token_id, T) ∈ id_token_type_map self ↔
    ∃ metadata, (T, metadata) ∈ supported_tokens self ∧ id metadata = token_id.

(** Every multiplier is a power of ten that fits a [u64]. *)
Definition multipliers_pow10 (self : BridgeTreasury) : Prop :=
  ∀ T metadata,
    (T, metadata) ∈ supported_tokens self →
    ∃ k, 0 <= k <= 19 ∧ decimal_multiplier metadata = 10 ^ k.

End treasury.

(** ** The first revision of the treasury *)

Module treasury_v1.
Import treasury.

(** [type_name::get<BTC>()] for [bridge::btc::BTC]; the bridge package lives
    at address [0xb]. *)
Definition BTC : type_name.TypeName :=
  "000000000000000000000000000000000000000000000000000000000000000b::btc::BTC".

Record ForeignTokenRegistration : Type := {
  type_name : type_name.TypeName;
  tc : coin.TreasuryCap;
  uc : package.UpgradeCap;
  decimal : Z;
  notional_value : Z
}.

Record BridgeTreasury : Type := {
  treasuries : gmap string coin.TreasuryCap;
  supported_tokens : vec_map.VecMap type_name.TypeName BridgeTokenMetadata;
  id_token_type_map : vec_map.VecMap Z type_name.TypeName;
  waiting_room : gmap string ForeignTokenRegistration
}.

Definition register_foreign_token (T : type_name.TypeName) (self : BridgeTreasury)
    (tc : coin.TreasuryCap) (uc : package.UpgradeCap)
    (metadata : coin.CoinMetadata) (notional_value : Z)
    : result (BridgeTreasury * list Effect) :=
  let type_name := T in
  coin_address ← address.from_ascii_bytes (type_name.get_address type_name);
  (* Make sure upgrade cap is for the Coin package *)
  _ ← assert (package.upgrade_package uc =? coin_address) location EInvalidUpgradeCap;
  let registration :=
    {| type_name := type_name; tc := tc; uc := uc;
       decimal := coin.get_decimals metadata; notional_value := notional_value |} in
  waiting_room' ← bag.add (waiting_room self) type_name registration;
  Ok ({| treasuries := treasuries self;
         supported_tokens := supported_tokens self;
         id_token_type_map := id_token_type_map self;
         waiting_room := waiting_room' |}, []).

Definition approve_new_token (T : type_name.TypeName) (self : BridgeTreasury)
    (token_id : Z) (native_token : bool) : result (BridgeTreasury * list Effect) :=
  let type_name0 := T in
  if negb native_token then
    '(registration, waiting_room') ← bag.remove (waiting_room self) type_name0;
    multiplier ← math.pow 10 (decimal registration);
    supported_tokens' ←
      vec_map.insert (supported_tokens self) BTC
        {| treasury.id := token_id; treasury.decimal_multiplier := multiplier;
           treasury.notional_value := notional_value registration;
           treasury.native_token := native_token |};
    id_token_type_map' ←
      vec_map.insert (id_token_type_map self) token_id (type_name registration);
    treasuries' ← object_bag.add (treasuries self) (type_name registration) (tc registration);
    Ok ({| treasuries := treasuries';
           supported_tokens := supported_tokens';
           id_token_type_map := id_token_type_map';
           waiting_room := waiting_room' |},
        [ public_freeze_object (uc registration);
          emit (NewTokenEvent token_id (type_name registration) native_token) ])
  else
    (* Not implemented for V1 *)
    Ok (self, []).

(** This revision asserts the system sender with [ENotSystemAddress], a
    constant the module does not declare; its value is a parameter here. *)
Definition create (ENotSystemAddress : Z) (ctx : tx_context.TxContext)
    : result BridgeTreasury :=
  _ ← assert (tx_context.sender ctx =? 0) location ENotSystemAddress;
  Ok {| treasuries := ∅; supported_tokens := vec_map.empty;
        id_token_type_map := vec_map.empty; waiting_room := ∅ |}.

Definition get_token_metadata (T : type_name.TypeName) (self : BridgeTreasury)
    : result BridgeTokenMetadata :=
  let metadata := vec_map.try_get (supported_tokens self) T in
  _ ← assert (bool_decide (is_Some metadata)) location EUnsupportedTokenType;
  match metadata with
  | Some metadata => Ok metadata
  | None => Abort (MoveAbort "std::option" 262145)
  end.

End treasury_v1.

(** ** [sui::sui] *)

Module sui.

Definition location : string := "sui::sui".
Definition EAlreadyMinted : Z := 0.
(* Sender is not @0x0 the system address. *)
Definition ENotSystemAddress : Z := 1.

(* The amount of Mist per Sui token *)
Definition MIST_PER_SUI : Z := 1000000000.
(* The total supply of Sui denominated in whole Sui tokens (10 Billion) *)
Definition TOTAL_SUPPLY_SUI : Z := 10000000000.
(* The total supply of Sui denominated in Mist (10 Billion * 10^9) *)
Definition TOTAL_SUPPLY_MIST : Z := 10000000000000000000.

(** Register the SUI coin and mint its whole supply: the balance handed
    back, and the metadata that is frozen on the way. *)
Definition new (ctx : tx_context.TxContext) : result (Z * coin.CoinMetadata) :=
  _ ← assert (tx_context.sender ctx =? 0) location ENotSystemAddress;
  _ ← assert (tx_context.epoch ctx =? 0) location EAlreadyMinted;
  let '(treasury, metadata) := coin.create_currency 9 in
  (* transfer::public_freeze_object(metadata) *)
  let supply := coin.treasury_into_supply treasury in
  '(_, total_sui) ← balance.increase_supply supply TOTAL_SUPPLY_MIST;
  (* balance::destroy_supply(supply) *)
  Ok (total_sui, metadata).

End sui.

(** ** Fixtures *)

Module fixtures.

(** A recovery function for examples: the signature is the signer's key. *)
Definition recover_as_key : ecdsa_k1.ecrecover := fun signature _ _ => Ok signature.

Definition token_message : message.BridgeMessage :=
  {| message.messageType := message_types.token; message.version := 1;
     message.nonce := 10; message.chainID := 0; message.payload := [] |}.

Definition price_message : message.BridgeMessage := BridgeUtils.regression_message.

(** A key outside the test committee. *)
Definition stranger : list Z := [4; 2].

(** Two foreign coin types, published at [0xc] and [0xd]. *)
Definition COIN_X : type_name.TypeName :=
  "000000000000000000000000000000000000000000000000000000000000000c::x::X".
Definition COIN_Y : type_name.TypeName :=
  "000000000000000000000000000000000000000000000000000000000000000d::y::Y".
(** A coin type nobody registers. *)
Definition COIN_Z : type_name.TypeName :=
  "000000000000000000000000000000000000000000000000000000000000000e::z::Z".

Definition cap_X : package.UpgradeCap := {| package.cap_id := 1; package.upgrade_package := 12 |}.
Definition cap_Y : package.UpgradeCap := {| package.cap_id := 2; package.upgrade_package := 13 |}.

Definition fresh_cap : coin.TreasuryCap := {| coin.total_supply := 0 |}.
Definition used_cap : coin.TreasuryCap := {| coin.total_supply := 5 |}.
Definition six_decimals : coin.CoinMetadata := {| coin.decimals := 6 |}.
Definition eight_decimals : coin.CoinMetadata := {| coin.decimals := 8 |}.

Definition after (self : treasury.BridgeTreasury)
    (r : result (treasury.BridgeTreasury * list treasury.Effect))
    : treasury.BridgeTreasury := (treasury.commit self r).1.

(** [COIN_Y] registered. *)
Definition registered_Y : treasury.BridgeTreasury :=
  after treasury.create
    (treasury.register_foreign_token COIN_Y treasury.create fresh_cap cap_Y eight_decimals).

(** [COIN_Y] approved as token 1 at 50000 dollars. *)
Definition approved_Y : treasury.BridgeTreasury :=
  after registered_Y
    (treasury.approve_new_token registered_Y COIN_Y 1 false 500000000).

(** [COIN_Y] is token 1 and [COIN_X], with six decimals, waits for approval. *)
Definition pending_X : treasury.BridgeTreasury :=
  after approved_Y
    (treasury.register_foreign_token COIN_X approved_Y fresh_cap cap_X six_decimals).

(** [COIN_X] approved as token 3 at one dollar. *)
Definition approved_X : treasury.BridgeTreasury :=
  after pending_X (treasury.approve_new_token pending_X COIN_X 3 false 10000).


(** A recovery function that fails on the empty signature. *)
Definition recover_nonempty : ecdsa_k1.ecrecover :=
  fun signature _ _ =>
    match signature with
    | [] => Abort (MoveAbort "sui::ecdsa_k1" 0)
    | _ => Ok signature
    end.

(** A committee whose two weights do not fit a [u64] together. *)
Definition heavy_committee : committee.BridgeCommittee :=
  {| committee.pub_keys := [([1], MAX_U64); ([2], 1)];
     committee.thresholds := [(message_types.token, 1)] |}.

Definition system_ctx : tx_context.TxContext :=
  {| tx_context.sender := 0; tx_context.epoch := 0 |}.

(** What [committee::create] builds. *)
Definition genesis : committee.BridgeCommittee :=
  {| committee.pub_keys := [(committee.test_key_1, 10); (committee.test_key_2, 10)];
     committee.thresholds := [(message_types.token, 10)] |}.

(** The first revision: [COIN_X] registered, then approved as token 3. *)
Definition after_v1 (self : treasury_v1.BridgeTreasury)
    (r : result (treasury_v1.BridgeTreasury * list treasury.Effect))
    : treasury_v1.BridgeTreasury :=
  match r with
  | Ok (self', _) => self'
  | Abort _ => self
  end.

(** What the first revision's [create] builds for the system sender. *)
Definition v1_created : treasury_v1.BridgeTreasury :=
  match treasury_v1.create sui.ENotSystemAddress system_ctx with
  | Ok self => self
  | Abort _ =>
      {| treasury_v1.treasuries := ∅; treasury_v1.supported_tokens := vec_map.empty;
         treasury_v1.id_token_type_map := vec_map.empty;
         treasury_v1.waiting_room := ∅ |}
  end.

Definition v1_pending_X : treasury_v1.BridgeTreasury :=
  after_v1 v1_created
    (treasury_v1.register_foreign_token COIN_X v1_created fresh_cap cap_X
       six_decimals 10000).

Definition v1_approved_X : treasury_v1.BridgeTreasury :=
  after_v1 v1_pending_X (treasury_v1.approve_new_token COIN_X v1_pending_X 3 false).

End fixtures.

(** ** The claims as the specification words them *)

Module stated.

(** Verification succeeds exactly when the distinct committee members among
    the recovered keys carry the threshold, and fails below it otherwise. *)
Definition quorum_claim (recover : ecdsa_k1.ecrecover)
    (self : committee.BridgeCommittee) (m : message.BridgeMessage)
    (signatures : list (list Z)) : Prop :=
  ∀ required keys,
    vec_map.try_get (committee.thresholds self) (message.message_type m) = Some required →
    committee.recovers_to recover m signatures keys →
    committee.verify_signatures recover self m signatures =
      if required <=? committee.distinct_member_weight self keys then Ok tt
      else Abort (MoveAbort committee.location committee.ESignatureBelowThreshold).

(** Two signatures of one key always end in [EDuplicatedSignature]. *)
Definition duplicate_claim (recover : ecdsa_k1.ecrecover)
    (self : committee.BridgeCommittee) (m : message.BridgeMessage)
    (signatures : list (list Z)) : Prop :=
  (∃ (i j : nat) s1 s2 key,
      (i < j)%nat ∧ signatures !! i = Some s1 ∧ signatures !! j = Some s2 ∧
      recover s1 (committee.message_bytes m) 0 = Ok key ∧
      recover s2 (committee.message_bytes m) 0 = Ok key) →
  committee.verify_signatures recover self m signatures =
    Abort (MoveAbort committee.location committee.EDuplicatedSignature).

(** A message type without a threshold is refused by an error of the
    committee's own. *)
Definition unsupported_type_claim (recover : ecdsa_k1.ecrecover)
    (self : committee.BridgeCommittee) (m : message.BridgeMessage)
    (signatures : list (list Z)) : Prop :=
  vec_map.try_get (committee.thresholds self) (message.message_type m) = None →
  ∃ code, committee.verify_signatures recover self m signatures =
            Abort (MoveAbort committee.location code).

(** Approving a pending foreign token promotes it. *)
Definition approve_claim (self : treasury.BridgeTreasury) (T : type_name.TypeName)
    (token_id notional_value : Z) : Prop :=
  ∀ registration,
    treasury.waiting_room self !! type_name.into_string T = Some registration →
    ∃ self',
      treasury.approve_new_token self (type_name.into_string T) token_id false
          notional_value =
        Ok (self', [ treasury.public_freeze_object (treasury.uc registration);
                     treasury.emit (treasury.NewTokenEvent token_id T false) ]) ∧
      treasury.waiting_room self' !! type_name.into_string T = None ∧
      vec_map.try_get (treasury.supported_tokens self') T =
        Some {| treasury.id := token_id;
                treasury.decimal_multiplier := 10 ^ treasury.decimal registration;
                treasury.notional_value := notional_value;
                treasury.native_token := false |} ∧
      vec_map.try_get (treasury.id_token_type_map self') token_id = Some T.


(** Minting or burning a type without a treasury fails as an unsupported
    token type. *)
Definition mint_burn_claim (T : type_name.TypeName) (self : treasury.BridgeTreasury)
    : Prop :=
  treasury.treasuries self !! T = None →
  (∀ amount, treasury.mint T self amount =
     Abort (MoveAbort treasury.location treasury.EUnsupportedTokenType)) ∧
  (∀ token, treasury.burn T self token =
     Abort (MoveAbort treasury.location treasury.EUnsupportedTokenType)).

End stated.

(** * Properties *)

(** ** The error monad *)

Lemma bind_Ok {A B} (m : result A) (f : A → result B) (b : B) :
  m ≫= f = Ok b ↔ ∃ a, m = Ok a ∧ f a = Ok b.
Proof.
  destruct m as [a|e]; simpl; split.
  - intros Hf. by exists a.
  - by intros (a' & [= ->] & Hf).
  - done.
  - by intros (a' & [=] & _).
Qed.

Lemma assert_Ok (cond : bool) (loc : string) (code : Z) :
  assert cond loc code = Ok tt ↔ cond = true.
Proof. destruct cond; simpl; split; done. Qed.

Lemma assert_true (loc : string) (code : Z) : assert true loc code = Ok tt.
Proof. done. Qed.

Lemma assert_false (loc : string) (code : Z) :
  assert false loc code = Abort (MoveAbort loc code).
Proof. done. Qed.

Lemma add_u64_fits (a b : Z) : a + b <= MAX_U64 → add_u64 a b = Ok (a + b).
Proof. intros Hle. unfold add_u64. by rewrite (proj2 (Z.leb_le _ _) Hle). Qed.

Lemma add_u64_Ok (a b c : Z) : add_u64 a b = Ok c → c = a + b ∧ a + b <= MAX_U64.
Proof.
  unfold add_u64. destruct (a + b <=? MAX_U64) eqn:Hle; [|done].
  intros [= <-]. split; [done|]. by apply Z.leb_le.
Qed.

(** ** Association vectors *)

Section vec_map_facts.
Context {K V : Type} `{EqDecision K}.
Implicit Types (self : vec_map.VecMap K V) (key : K).

Lemma try_get_nil key : vec_map.try_get (V := V) [] key = None.
Proof. done. Qed.

Lemma try_get_cons k v self key :
  vec_map.try_get ((k, v) :: self) key =
    if decide (k = key) then Some v else vec_map.try_get self key.
Proof.
  unfold vec_map.try_get. simpl. destruct (decide (k = key)); [done|].
  by destruct (vec_map.get_idx_opt self key).
Qed.

Lemma get_idx_opt_None self key :
  vec_map.get_idx_opt self key = None ↔ key ∉ vec_map.keys self.
Proof.
  unfold vec_map.keys. induction self as [|[k v] self IH]; simpl.
  - split; [intros _; apply not_elem_of_nil | done].
  - rewrite not_elem_of_cons. destruct (decide (k = key)) as [->|Hne].
    + split; [done | by intros [? _]].
    + rewrite fmap_None, IH. split; [by intros ? | by intros [_ ?]].
Qed.

Lemma contains_true self key :
  vec_map.contains self key = true ↔ key ∈ vec_map.keys self.
Proof.
  unfold vec_map.contains.
  destruct (vec_map.get_idx_opt self key) eqn:Hidx.
  - split; [intros _ | done].
    destruct (decide (key ∈ vec_map.keys self)) as [|Hn]; [done|].
    apply get_idx_opt_None in Hn. congruence.
  - split; [done|]. intros Hin. by apply get_idx_opt_None in Hidx.
Qed.

Lemma contains_false self key :
  vec_map.contains self key = false ↔ key ∉ vec_map.keys self.
Proof. rewrite <- contains_true. by destruct (vec_map.contains self key). Qed.

Lemma try_get_None self key :
  vec_map.try_get self key = None ↔ key ∉ vec_map.keys self.
Proof.
  unfold vec_map.keys. induction self as [|[k v] self IH].
  - split; [intros _; apply not_elem_of_nil | done].
  - rewrite try_get_cons, fmap_cons, not_elem_of_cons. simpl.
    destruct (decide (k = key)) as [Heq|Hne].
    + split; [done | by intros [? _]].
    + rewrite IH. split; [intros Hk; split; [congruence | done] | by intros [_ ?]].
Qed.

Lemma try_get_Some_elem self key v :
  vec_map.try_get self key = Some v → (key, v) ∈ self.
Proof.
  induction self as [|[k w] self IH]; [done|].
  rewrite try_get_cons. destruct (decide (k = key)) as [->|].
  - intros [= ->]. apply list_elem_of_here.
  - intros Hg. apply list_elem_of_further. by apply IH.
Qed.

Lemma try_get_elem self key v :
  NoDup (vec_map.keys self) → (key, v) ∈ self → vec_map.try_get self key = Some v.
Proof.
  unfold vec_map.keys. induction self as [|[k w] self IH]; intros Hnd Hin.
  - by apply elem_of_nil in Hin.
  - rewrite fmap_cons in Hnd. apply NoDup_cons in Hnd as [Hk Hnd].
    rewrite try_get_cons. apply elem_of_cons in Hin as [[= -> ->]|Hin].
    + by rewrite decide_True.
    + rewrite decide_False; [by apply IH|].
      intros ->. apply Hk. simpl.
      apply list_elem_of_fmap. by exists (key, v).
Qed.

Lemma try_get_is_Some self key :
  is_Some (vec_map.try_get self key) ↔ key ∈ vec_map.keys self.
Proof.
  rewrite <- not_eq_None_Some, try_get_None.
  destruct (decide (key ∈ vec_map.keys self)); naive_solver.
Qed.

Lemma get_try_get self key v :
  vec_map.try_get self key = Some v → vec_map.get self key = Ok v.
Proof. unfold vec_map.get. by intros ->. Qed.

Lemma get_absent self key :
  vec_map.try_get self key = None →
  vec_map.get self key = Abort (MoveAbort vec_map.location vec_map.EKeyDoesNotExist).
Proof. unfold vec_map.get. by intros ->. Qed.

Lemma try_get_app self key k v :
  vec_map.try_get (self ++ [(k, v)]) key =
    match vec_map.try_get self key with
    | Some x => Some x
    | None => if decide (k = key) then Some v else None
    end.
Proof.
  induction self as [|[k' w] self IH]; simpl.
  - by rewrite try_get_cons, try_get_nil.
  - rewrite !try_get_cons. by destruct (decide (k' = key)).
Qed.

Lemma insert_fresh self key v :
  key ∉ vec_map.keys self → vec_map.insert self key v = Ok (self ++ [(key, v)]).
Proof.
  intros Hk. unfold vec_map.insert.
  by rewrite (proj2 (contains_false self key) Hk).
Qed.

Lemma insert_present self key v :
  key ∈ vec_map.keys self →
  vec_map.insert self key v =
    Abort (MoveAbort vec_map.location vec_map.EKeyAlreadyExists).
Proof.
  intros Hk. unfold vec_map.insert.
  by rewrite (proj2 (contains_true self key) Hk).
Qed.

Lemma insert_Ok self key v self' :
  vec_map.insert self key v = Ok self' →
  (key ∉ vec_map.keys self) ∧ self' = self ++ [(key, v)].
Proof.
  destruct (decide (key ∈ vec_map.keys self)) as [Hin|Hn].
  - by rewrite insert_present.
  - rewrite insert_fresh; [|done]. by intros [= <-].
Qed.

Lemma keys_app self key v :
  vec_map.keys (self ++ [(key, v)]) = vec_map.keys self ++ [key].
Proof. unfold vec_map.keys. by rewrite fmap_app. Qed.

End vec_map_facts.

(** ** Committee verification *)

Section committee_facts.
Variable recover : ecdsa_k1.ecrecover.
Implicit Types (self : committee.BridgeCommittee) (m : message.BridgeMessage).
Implicit Types (signatures seen keys : list (list Z)) (key : list Z).

Lemma vec_set_contains_true seen key :
  vec_set.contains seen key = true ↔ key ∈ seen.
Proof. unfold vec_set.contains. apply bool_decide_eq_true. Qed.

Lemma vec_set_insert_fresh seen key :
  vec_set.contains seen key = false → vec_set.insert seen key = Ok (seen ++ [key]).
Proof. intros Hc. unfold vec_set.insert. by rewrite Hc. Qed.

(** One round of the loop reads the signature under the cursor and does what
    one step of [tally] does. *)
Lemma loop_body_step self signatures bytes st signature :
  signatures !! committee.i st = Some signature →
  committee.loop_body recover self signatures bytes st =
    (pubkey ← recover signature bytes 0;
     _ ← assert (negb (vec_set.contains (committee.seen_pub_key st) pubkey))
           committee.location committee.EDuplicatedSignature;
     _ ← assert (vec_map.contains (committee.pub_keys self) pubkey)
           committee.location committee.EInvalidSignature;
     weight ← vec_map.get (committee.pub_keys self) pubkey;
     acc ← add_u64 (committee.threshold st) weight;
     Ok {| committee.i := S (committee.i st);
           committee.seen_pub_key := committee.seen_pub_key st ++ [pubkey];
           committee.threshold := acc |}).
Proof.
  intros Hsig. unfold committee.loop_body, vector.borrow. rewrite Hsig. simpl.
  destruct (recover signature bytes 0) as [pubkey|e]; simpl; [|done].
  destruct (vec_set.contains (committee.seen_pub_key st) pubkey) eqn:Hseen;
    simpl; [done|].
  destruct (vec_map.contains (committee.pub_keys self) pubkey); simpl; [|done].
  destruct (vec_map.get (committee.pub_keys self) pubkey) as [weight|e]; simpl; [|done].
  destruct (add_u64 (committee.threshold st) weight) as [acc|e]; simpl; [|done].
  by rewrite (vec_set_insert_fresh _ _ Hseen).
Qed.

(** The loop never runs out of fuel and computes [tally] on the signatures
    from its cursor on, as long as the cursor counts the keys seen. *)
Lemma verify_loop_tally self signatures bytes fuel st :
  length (committee.seen_pub_key st) = committee.i st →
  (committee.i st ≤ length signatures)%nat →
  (length signatures - committee.i st ≤ fuel)%nat →
  committee.threshold <$>
    committee.verify_loop recover fuel self signatures bytes st =
  committee.tally recover self bytes (drop (committee.i st) signatures)
    (committee.seen_pub_key st) (committee.threshold st).
Proof.
  revert st. induction fuel as [|fuel IH]; intros st Hseen Hle Hfuel.
  - assert (committee.i st = length signatures) as Hi by lia.
    simpl. unfold vec_set.size. rewrite Hseen, Hi.
    rewrite (proj2 (Nat.ltb_ge _ _)) by lia. by rewrite drop_all.
  - simpl. unfold vec_set.size. rewrite Hseen.
    destruct (committee.i st <? length signatures)%nat eqn:Hlt.
    + apply Nat.ltb_lt in Hlt.
      destruct (lookup_lt_is_Some_2 signatures (committee.i st) Hlt)
        as [signature Hsig].
      rewrite (drop_S _ _ _ Hsig). simpl.
      rewrite (loop_body_step _ _ _ _ _ Hsig).
      destruct (recover signature bytes 0) as [pubkey|e]; simpl; [|done].
      destruct (vec_set.contains (committee.seen_pub_key st) pubkey); simpl; [done|].
      destruct (vec_map.contains (committee.pub_keys self) pubkey); simpl; [|done].
      destruct (vec_map.get _ _) as [weight|e]; simpl; [|done].
      destruct (add_u64 _ _) as [acc|e]; simpl; [|done].
      rewrite IH; simpl; [done | | lia | lia].
      rewrite length_app. simpl. lia.
    + apply Nat.ltb_ge in Hlt.
      assert (committee.i st = length signatures) as Hi by lia.
      rewrite Hi, drop_all. done.
Qed.

(** [verify_signatures] in terms of [tally]. *)
Lemma verify_signatures_tally self m signatures :
  committee.verify_signatures recover self m signatures =
    (required ←
       vec_map.get (committee.thresholds self) (message.message_type m);
     total ← committee.tally recover self (committee.message_bytes m) signatures [] 0;
     assert (required <=? total) committee.location
       committee.ESignatureBelowThreshold).
Proof.
  unfold committee.verify_signatures.
  destruct (vec_map.get _ _) as [required|e]; simpl; [|done].
  pose proof (verify_loop_tally self signatures (committee.message_bytes m)
    (length signatures)
    {| committee.i := 0; committee.seen_pub_key := vec_set.empty;
       committee.threshold := 0 |}) as Hloop.
  simpl in Hloop. rewrite drop_0 in Hloop. unfold vec_set.empty in *.
  rewrite <- Hloop; [| done | lia | lia].
  by destruct (committee.verify_loop _ _ _ _ _ _) as [st|e].
Qed.

Lemma weight_of_get self key :
  committee.is_member self key = true →
  vec_map.get (committee.pub_keys self) key = Ok (committee.weight_of self key).
Proof.
  unfold committee.is_member, committee.weight_of. intros Hmem.
  apply contains_true, try_get_is_Some in Hmem as [w Hw].
  rewrite Hw. simpl. by apply get_try_get.
Qed.

Lemma weight_of_nonneg self key :
  committee.weights_u64 self → 0 <= committee.weight_of self key.
Proof.
  unfold committee.weights_u64, committee.weight_of. intros Hwf.
  destruct (vec_map.try_get _ _) as [w|] eqn:Hw; simpl; [|done].
  apply try_get_Some_elem in Hw.
  rewrite Forall_forall in Hwf. by destruct (Hwf _ Hw).
Qed.

Lemma total_weight_nonneg self keys :
  committee.weights_u64 self → 0 <= committee.total_weight self keys.
Proof.
  intros Hwf. induction keys as [|key keys IH]; simpl; [done|].
  pose proof (weight_of_nonneg self key Hwf). lia.
Qed.

Lemma total_weight_app self keys keys' :
  committee.total_weight self (keys ++ keys') =
    committee.total_weight self keys + committee.total_weight self keys'.
Proof. induction keys as [|key keys IH]; simpl; [done|]. rewrite IH. lia. Qed.

(** Signatures of distinct members, none seen before, are all counted. *)
Lemma tally_prefix self m signatures keys rest seen acc :
  committee.weights_u64 self →
  committee.recovers_to recover m signatures keys →
  NoDup (seen ++ keys) →
  Forall (fun key => committee.is_member self key = true) keys →
  0 <= acc →
  acc + committee.total_weight self keys <= MAX_U64 →
  committee.tally recover self (committee.message_bytes m) (signatures ++ rest) seen acc =
  committee.tally recover self (committee.message_bytes m) rest (seen ++ keys)
    (acc + committee.total_weight self keys).
Proof.
  intros Hwf Hrec. revert seen acc.
  induction Hrec as [|signature key signatures keys Hkey Hrec IH];
    intros seen acc Hnd Hmem Hacc Hfit.
  - simpl. by rewrite app_nil_r, Z.add_0_r.
  - simpl in *. rewrite Hkey. simpl.
    apply Forall_cons in Hmem as [Hmem Hmems].
    assert (key ∉ seen) as Hfresh.
    { apply NoDup_app in Hnd as (_ & Hdisj & _).
      intros Hin. apply (Hdisj _ Hin). apply list_elem_of_here. }
    assert (vec_set.contains seen key = false) as ->.
    { destruct (vec_set.contains seen key) eqn:Hc; [|done].
      by apply vec_set_contains_true in Hc. }
    simpl. unfold committee.is_member in Hmem. rewrite Hmem. simpl.
    rewrite (weight_of_get self key Hmem). simpl.
    pose proof (weight_of_nonneg self key Hwf) as Hw.
    pose proof (total_weight_nonneg self keys Hwf) as Hws.
    rewrite add_u64_fits by lia. simpl.
    rewrite IH; [| by rewrite <- app_assoc | done | lia | lia].
    rewrite <- app_assoc. simpl. f_equal. lia.
Qed.

(** A signature of a key already seen stops the loop. *)
Lemma tally_repeated self bytes signature rest seen acc key :
  recover signature bytes 0 = Ok key → key ∈ seen →
  committee.tally recover self bytes (signature :: rest) seen acc =
    Abort (MoveAbort committee.location committee.EDuplicatedSignature).
Proof.
  intros Hkey Hin. simpl. rewrite Hkey. simpl.
  by rewrite (proj2 (vec_set_contains_true seen key) Hin).
Qed.

(** What a count that comes to an end has seen. *)
Lemma tally_Ok self m signatures seen acc total :
  committee.tally recover self (committee.message_bytes m) signatures seen acc = Ok total →
  ∃ keys,
    committee.recovers_to recover m signatures keys ∧
    (NoDup seen → NoDup (seen ++ keys)) ∧
    Forall (fun key => committee.is_member self key = true) keys ∧
    total = acc + committee.total_weight self keys.
Proof.
  revert seen acc. induction signatures as [|signature signatures IH];
    intros seen acc Htally; simpl in Htally.
  - injection Htally as <-. exists []. split; [constructor|].
    rewrite app_nil_r. simpl. repeat split; [done | constructor | lia].
  - apply bind_Ok in Htally as (key & Hkey & Htally).
    apply bind_Ok in Htally as ([] & Hfresh & Htally).
    apply bind_Ok in Htally as ([] & Hmem & Htally).
    apply bind_Ok in Htally as (weight & Hweight & Htally).
    apply bind_Ok in Htally as (acc' & Hacc & Htally).
    apply assert_Ok in Hfresh, Hmem.
    apply negb_true_iff in Hfresh.
    apply add_u64_Ok in Hacc as [-> _].
    rewrite (weight_of_get self key Hmem) in Hweight. injection Hweight as <-.
    destruct (IH _ _ Htally) as (keys & Hrec & Hnd & Hmems & ->).
    exists (key :: keys). repeat split.
    + by constructor.
    + intros Hseen. rewrite <- app_assoc in Hnd. simpl in Hnd. apply Hnd.
      apply NoDup_app. repeat split; [done | | apply NoDup_singleton].
      intros x Hx ->%list_elem_of_singleton.
      apply vec_set_contains_true in Hx. congruence.
    + by constructor.
    + simpl. lia.
Qed.

End committee_facts.

Lemma remove_dups_NoDup {A} `{EqDecision A} (l : list A) :
  NoDup l → remove_dups l = l.
Proof.
  induction 1 as [|x l Hx Hnd IH]; simpl; [done|].
  destruct (decide_rel elem_of x l); [done|]. by rewrite IH.
Qed.

Lemma filter_Forall {A} (P : A → Prop) `{∀ x, Decision (P x)} (l : list A) :
  Forall P l → filter P l = l.
Proof.
  induction 1 as [|x l Hx Hl IH]; [done|].
  rewrite filter_cons, decide_True; [|done]. by rewrite IH.
Qed.

Lemma distinct_member_weight_all (self : committee.BridgeCommittee)
    (keys : list (list Z)) :
  NoDup keys →
  Forall (fun key => committee.is_member self key = true) keys →
  committee.distinct_member_weight self keys = committee.total_weight self keys.
Proof.
  intros Hnd Hmem. unfold committee.distinct_member_weight.
  rewrite (remove_dups_NoDup keys Hnd). by rewrite (filter_Forall _ keys Hmem).
Qed.

(** ** Token treasury: arithmetic *)

Lemma pow10_table_small :
  Forall (fun e => e.1 <= 19 → e.2 = Ok (10 ^ e.1)) math.pow10_table.
Proof.
  apply (Forall_forall _ _).
  assert (forallb (fun e : Z * result Z =>
            if e.1 <=? 19 then
              match e.2 with Ok v => v =? 10 ^ e.1 | Abort _ => false end
            else true) math.pow10_table = true) as Hall by (vm_compute; reflexivity).
  rewrite forallb_forall in Hall. intros e He%list_elem_of_In Hle.
  specialize (Hall e He). rewrite (proj2 (Z.leb_le _ _) Hle) in Hall.
  destruct (e.2) as [v|]; [|done]. apply Z.eqb_eq in Hall. by subst.
Qed.

Lemma pow10_table_large :
  Forall (fun e => 20 <= e.1 → e.2 = Abort ArithmeticError) math.pow10_table.
Proof.
  apply (Forall_forall _ _).
  assert (forallb (fun e : Z * result Z =>
            if 20 <=? e.1 then
              match e.2 with Abort ArithmeticError => true | _ => false end
            else true) math.pow10_table = true) as Hall by (vm_compute; reflexivity).
  rewrite forallb_forall in Hall. intros e He%list_elem_of_In Hle.
  specialize (Hall e He). rewrite (proj2 (Z.leb_le _ _) Hle) in Hall.
  by destruct (e.2) as [v|[]].
Qed.

Lemma pow10_table_elem (d : Z) :
  0 <= d <= 255 → (d, math.pow 10 d) ∈ math.pow10_table.
Proof.
  intros Hd. unfold math.pow10_table. apply list_elem_of_fmap.
  exists d. split; [done|]. apply list_elem_of_fmap.
  exists (Z.to_nat d). split; [lia|]. apply elem_of_seq. lia.
Qed.

(** [pow(10, decimal)] fits a [u64] up to 19 decimals and overflows from 20. *)
Lemma pow10_fits (d : Z) : 0 <= d <= 19 → math.pow 10 d = Ok (10 ^ d).
Proof.
  intros Hd. pose proof pow10_table_small as Hall.
  rewrite Forall_forall in Hall.
  apply (Hall (d, math.pow 10 d)); [apply pow10_table_elem; lia | simpl; lia].
Qed.

Lemma pow10_overflows (d : Z) :
  20 <= d <= 255 → math.pow 10 d = Abort ArithmeticError.
Proof.
  intros Hd. pose proof pow10_table_large as Hall.
  rewrite Forall_forall in Hall.
  apply (Hall (d, math.pow 10 d)); [apply pow10_table_elem; lia | simpl; lia].
Qed.

(** ** Writes into an association vector *)

Section vec_map_update_facts.
Context {K V : Type} `{EqDecision K}.
Implicit Types (self : vec_map.VecMap K V) (key : K) (f : V → V).

Lemma update_cons k v self key f :
  vec_map.update ((k, v) :: self) key f =
    if decide (k = key) then Ok ((k, f v) :: self)
    else cons (k, v) <$> vec_map.update self key f.
Proof.
  unfold vec_map.update, vec_map.get_idx. simpl.
  destruct (decide (k = key)); [done|].
  by destruct (vec_map.get_idx_opt self key).
Qed.

Lemma update_nil key f :
  vec_map.update (V := V) [] key f =
    Abort (MoveAbort vec_map.location vec_map.EKeyDoesNotExist).
Proof. done. Qed.

Lemma update_absent self key f :
  key ∉ vec_map.keys self →
  vec_map.update self key f =
    Abort (MoveAbort vec_map.location vec_map.EKeyDoesNotExist).
Proof.
  intros Hk. unfold vec_map.update, vec_map.get_idx.
  by rewrite (proj2 (get_idx_opt_None self key) Hk).
Qed.

Lemma update_present self key f :
  key ∈ vec_map.keys self → ∃ self', vec_map.update self key f = Ok self'.
Proof.
  intros Hk. unfold vec_map.update, vec_map.get_idx.
  destruct (vec_map.get_idx_opt self key) as [idx|] eqn:Hidx; [by eexists|].
  by apply get_idx_opt_None in Hidx.
Qed.

Lemma update_keys self key f self' :
  vec_map.update self key f = Ok self' → vec_map.keys self' = vec_map.keys self.
Proof.
  revert self'. induction self as [|[k v] self IH]; intros self'.
  - by rewrite update_nil.
  - rewrite update_cons. destruct (decide (k = key)).
    + by intros [= <-].
    + destruct (vec_map.update self key f) as [r|] eqn:Hr; [|done].
      intros [= <-]. unfold vec_map.keys in *. simpl. f_equal. by apply IH.
Qed.

Lemma update_try_get self key f self' key' :
  vec_map.update self key f = Ok self' →
  vec_map.try_get self' key' =
    if decide (key' = key) then f <$> vec_map.try_get self key
    else vec_map.try_get self key'.
Proof.
  revert self'. induction self as [|[k v] self IH]; intros self'.
  - by rewrite update_nil.
  - rewrite update_cons. destruct (decide (k = key)) as [->|Hk].
    + intros [= <-]. rewrite !try_get_cons.
      repeat case_decide; by simplify_eq.
    + destruct (vec_map.update self key f) as [r|] eqn:Hr; [|done].
      intros [= <-]. rewrite !try_get_cons, (IH r eq_refl).
      repeat case_decide; by simplify_eq.
Qed.

Lemma update_elem self key f self' k v' :
  vec_map.update self key f = Ok self' → (k, v') ∈ self' →
  ∃ v, (k, v) ∈ self ∧ (v' = v ∨ v' = f v).
Proof.
  revert self'. induction self as [|[k0 v0] self IH]; intros self'.
  - by rewrite update_nil.
  - rewrite update_cons. destruct (decide (k0 = key)) as [->|Hk].
    + intros [= <-] [[= -> ->]|Hin]%elem_of_cons.
      * exists v0. split; [apply list_elem_of_here | by right].
      * exists v'. split; [by apply list_elem_of_further | by left].
    + destruct (vec_map.update self key f) as [r|] eqn:Hr; [|done].
      intros [= <-] [[= -> ->]|Hin]%elem_of_cons.
      * exists v0. split; [apply list_elem_of_here | by left].
      * destruct (IH r eq_refl Hin) as (v & Hv & Hor).
        exists v. split; [by apply list_elem_of_further | done].
Qed.

End vec_map_update_facts.

(** ** Token treasury: what a call that returns has done *)

Section treasury_calls.
Implicit Types (self : treasury.BridgeTreasury) (T : type_name.TypeName).

Lemma bag_add_Ok {V} (b : gmap string V) (k : string) (v : V) b' :
  bag.add b k v = Ok b' ↔ b !! k = None ∧ b' = <[k := v]> b.
Proof.
  unfold bag.add. destruct (b !! k); split; try done.
  - by intros [? _].
  - by intros [= <-].
  - by intros [_ ->].
Qed.

Lemma register_foreign_token_Ok T self tc uc metadata self' effects :
  treasury.register_foreign_token T self tc uc metadata = Ok (self', effects) ↔
  coin.total_supply tc = 0 ∧
  address.from_ascii_bytes (type_name.get_address T) = Ok (package.upgrade_package uc) ∧
  treasury.waiting_room self !! T = None ∧
  treasury.treasuries self !! T = None ∧
  self' =
    {| treasury.treasuries := <[T := tc]> (treasury.treasuries self);
       treasury.supported_tokens := treasury.supported_tokens self;
       treasury.id_token_type_map := treasury.id_token_type_map self;
       treasury.waiting_room :=
         <[T := {| treasury.type_name := T; treasury.uc := uc;
                   treasury.decimal := coin.decimals metadata |}]>
           (treasury.waiting_room self) |} ∧
  effects =
    [treasury.emit (treasury.TokenRegistrationEvent T (coin.decimals metadata) false)].
Proof.
  unfold treasury.register_foreign_token, type_name.into_string, coin.get_decimals.
  destruct (coin.total_supply tc =? 0) eqn:Hsupply; simpl.
  2: { apply Z.eqb_neq in Hsupply. split; [done | by intros [? _]]. }
  apply Z.eqb_eq in Hsupply.
  destruct (address.from_ascii_bytes (type_name.get_address T)) as [a|e]; simpl.
  2: { split; [done | by intros (_ & ? & _)]. }
  destruct (package.upgrade_package uc =? a) eqn:Hcap; simpl.
  2: { apply Z.eqb_neq in Hcap. split; [done|]. intros (_ & [= ->] & _). done. }
  apply Z.eqb_eq in Hcap. subst a.
  unfold object_bag.add, bag.add.
  destruct (treasury.waiting_room self !! T) eqn:Hw; simpl.
  { split; [done | by intros (_ & _ & ? & _)]. }
  destruct (treasury.treasuries self !! T) eqn:Ht; simpl.
  { split; [done | by intros (_ & _ & _ & ? & _)]. }
  split.
  - by intros [= <- <-].
  - by intros (_ & _ & _ & _ & -> & ->).
Qed.

Lemma approve_new_token_Ok self token_name token_id notional_value self' effects :
  treasury.approve_new_token self token_name token_id false notional_value =
    Ok (self', effects) ↔
  ∃ registration multiplier,
    treasury.waiting_room self !! token_name = Some registration ∧
    math.pow 10 (treasury.decimal registration) = Ok multiplier ∧
    (treasury.type_name registration ∉ vec_map.keys (treasury.supported_tokens self)) ∧
    (token_id ∉ vec_map.keys (treasury.id_token_type_map self)) ∧
    self' =
      {| treasury.treasuries := treasury.treasuries self;
         treasury.supported_tokens :=
           treasury.supported_tokens self ++
             [(treasury.type_name registration,
               {| treasury.id := token_id;
                  treasury.decimal_multiplier := multiplier;
                  treasury.notional_value := notional_value;
                  treasury.native_token := false |})];
         treasury.id_token_type_map :=
           treasury.id_token_type_map self ++
             [(token_id, treasury.type_name registration)];
         treasury.waiting_room := delete token_name (treasury.waiting_room self) |} ∧
    effects =
      [ treasury.public_freeze_object (treasury.uc registration);
        treasury.emit
          (treasury.NewTokenEvent token_id (treasury.type_name registration) false) ].
Proof.
  unfold treasury.approve_new_token, bag.remove. simpl.
  destruct (treasury.waiting_room self !! token_name) as [registration|] eqn:Hw; simpl.
  2: { split; [done | by intros (? & ? & ? & _)]. }
  destruct (math.pow 10 (treasury.decimal registration)) as [multiplier|e] eqn:Hpow;
    simpl.
  2: { split; [done|]. intros (? & ? & [= <-] & ? & _). congruence. }
  destruct (decide (treasury.type_name registration ∈
              vec_map.keys (treasury.supported_tokens self))) as [Hin|Hfresh].
  { rewrite (insert_present _ _ _ Hin). simpl.
    split; [done|]. intros (? & ? & [= <-] & _ & ? & _). done. }
  rewrite (insert_fresh _ _ _ Hfresh). simpl.
  destruct (decide (token_id ∈ vec_map.keys (treasury.id_token_type_map self)))
    as [Hin|Hid].
  { rewrite (insert_present _ _ _ Hin). simpl.
    split; [done|]. intros (? & ? & _ & _ & _ & ? & _). done. }
  rewrite (insert_fresh _ _ _ Hid). simpl. split.
  - intros [= <- <-]. by exists registration, multiplier.
  - intros (? & ? & [= <-] & Hm & _ & _ & -> & ->). rewrite Hpow in Hm.
    by injection Hm as <-.
Qed.

Lemma approve_new_token_native self token_name token_id notional_value :
  treasury.approve_new_token self token_name token_id true notional_value =
    Ok (self, []).
Proof. done. Qed.

Lemma update_asset_notional_price_Ok self token_id new_usd_price self' effects :
  treasury.update_asset_notional_price self token_id new_usd_price =
    Ok (self', effects) ↔
  ∃ T supported',
    vec_map.try_get (treasury.id_token_type_map self) token_id = Some T ∧
    vec_map.update (treasury.supported_tokens self) T
      (treasury.set_notional_value new_usd_price) = Ok supported' ∧
    self' =
      {| treasury.treasuries := treasury.treasuries self;
         treasury.supported_tokens := supported';
         treasury.id_token_type_map := treasury.id_token_type_map self;
         treasury.waiting_room := treasury.waiting_room self |} ∧
    effects = [treasury.emit (treasury.UpdateTokenPriceEvent token_id new_usd_price)].
Proof.
  unfold treasury.update_asset_notional_price.
  destruct (vec_map.try_get (treasury.id_token_type_map self) token_id) as [T|];
    simpl.
  2: { split; [done | by intros (? & ? & ? & _)]. }
  destruct (vec_map.update _ T _) as [supported'|e] eqn:Hup; simpl.
  - split.
    + intros [= <- <-]. by exists T, supported'.
    + intros (? & ? & [= <-] & Hs & -> & ->). rewrite Hup in Hs. by injection Hs as <-.
  - split; [done|]. intros (? & ? & [= <-] & Hs & _). congruence.
Qed.

Lemma burn_Ok T self token self' effects :
  treasury.burn T self token = Ok (self', effects) →
  ∃ cap cap',
    treasury.treasuries self !! T = Some cap ∧
    self' =
      {| treasury.treasuries := <[T := cap']> (treasury.treasuries self);
         treasury.supported_tokens := treasury.supported_tokens self;
         treasury.id_token_type_map := treasury.id_token_type_map self;
         treasury.waiting_room := treasury.waiting_room self |}.
Proof.
  unfold treasury.burn, object_bag.borrow_mut.
  destruct (treasury.treasuries self !! T) as [cap|]; simpl; [|done].
  destruct (coin.burn cap token) as [[cap' v]|e]; simpl; [|done].
  intros [= <- <-]. by exists cap, cap'.
Qed.

Lemma mint_Ok T self amount c self' :
  treasury.mint T self amount = Ok (c, self') →
  ∃ cap cap',
    treasury.treasuries self !! T = Some cap ∧
    self' =
      {| treasury.treasuries := <[T := cap']> (treasury.treasuries self);
         treasury.supported_tokens := treasury.supported_tokens self;
         treasury.id_token_type_map := treasury.id_token_type_map self;
         treasury.waiting_room := treasury.waiting_room self |}.
Proof.
  unfold treasury.mint, object_bag.borrow_mut.
  destruct (treasury.treasuries self !! T) as [cap|]; simpl; [|done].
  destruct (coin.mint cap amount) as [[cap' v]|e]; simpl; [|done].
  intros [= <- <-]. by exists cap, cap'.
Qed.

End treasury_calls.

(** ** Token treasury: the invariant *)

Section treasury_invariant.
Implicit Types (self : treasury.BridgeTreasury) (T : string).

Lemma create_invariant : treasury.invariant treasury.create.
Proof.
  split; simpl; try done.
  - intros k [? Hk]. by rewrite lookup_empty in Hk.
  - intros T HT. by apply elem_of_nil in HT.
  - intros k [? Hk]. by rewrite lookup_empty in Hk.
  - intros token_id T HT. by apply elem_of_nil in HT.
  - intros T metadata HT. by apply elem_of_nil in HT.
  - apply NoDup_nil_2.
  - apply NoDup_nil_2.
Qed.

Lemma register_invariant T self tc uc metadata self' effects :
  treasury.invariant self →
  treasury.register_foreign_token T self tc uc metadata = Ok (self', effects) →
  treasury.invariant self'.
Proof.
  intros [Hown Hwcap Hscap Hdisj Hids Hforeign Hnd1 Hnd2].
  intros (_ & _ & Hw & Ht & -> & _)%register_foreign_token_Ok.
  split; simpl; try done.
  - intros k registration. rewrite lookup_insert.
    case_decide; [by intros [= <-] | apply Hown].
  - intros k. rewrite !lookup_insert. case_decide; [by eauto | apply Hwcap].
  - intros T' HT'. rewrite lookup_insert. case_decide; [by eauto | by apply Hscap].
  - intros k. rewrite lookup_insert. case_decide as Hk; [|apply Hdisj].
    subst k. intros _ Hin. apply Hscap in Hin as [? Hin]. congruence.
Qed.

Lemma approve_invariant self token_name token_id native notional_value self' effects :
  treasury.invariant self →
  treasury.approve_new_token self token_name token_id native notional_value =
    Ok (self', effects) →
  treasury.invariant self'.
Proof.
  intros Hinv. destruct native.
  { rewrite approve_new_token_native. by intros [= <- _]. }
  destruct Hinv as [Hown Hwcap Hscap Hdisj Hids Hforeign Hnd1 Hnd2].
  intros (registration & multiplier & Hw & _ & Hfresh & Hid & -> & _)
    %approve_new_token_Ok.
  pose proof (Hown _ _ Hw) as Hname.
  split; simpl.
  - intros k r. rewrite lookup_delete. case_decide; [done | apply Hown].
  - intros k. rewrite lookup_delete. case_decide; [by intros [? ?] | apply Hwcap].
  - intros T. rewrite keys_app, elem_of_app, list_elem_of_singleton.
    intros [HT | ->]; [by apply Hscap|]. apply Hwcap. rewrite Hname. by eauto.
  - intros k. rewrite lookup_delete. case_decide as Hk; [by intros [? ?]|].
    intros Hin. rewrite keys_app, elem_of_app, list_elem_of_singleton.
    intros [Hs | ->]; [by apply (Hdisj k)|]. congruence.
  - intros i T. rewrite keys_app, !elem_of_app, !list_elem_of_singleton.
    intros [Hin | [= -> ->]]; [left; by apply (Hids i) | by right].
  - intros T md. rewrite elem_of_app, list_elem_of_singleton.
    intros [Hin | [= -> ->]]; [by apply (Hforeign T) | done].
  - rewrite keys_app. apply NoDup_app. repeat split; [done | | apply NoDup_singleton].
    intros x Hx ->%list_elem_of_singleton. done.
  - rewrite keys_app. apply NoDup_app. repeat split; [done | | apply NoDup_singleton].
    intros x Hx ->%list_elem_of_singleton. done.
Qed.

Lemma update_invariant self token_id new_usd_price self' effects :
  treasury.invariant self →
  treasury.update_asset_notional_price self token_id new_usd_price =
    Ok (self', effects) →
  treasury.invariant self'.
Proof.
  intros [Hown Hwcap Hscap Hdisj Hids Hforeign Hnd1 Hnd2].
  intros (T & supported' & _ & Hup & -> & _)%update_asset_notional_price_Ok.
  pose proof (update_keys _ _ _ _ Hup) as Hkeys.
  split; simpl; rewrite ?Hkeys; try done.
  intros T' md' Hin.
  destruct (update_elem _ _ _ _ _ _ Hup Hin) as (md & Hmd & [-> | ->]).
  - by apply (Hforeign T').
  - simpl. by apply (Hforeign T').
Qed.

Lemma insert_cap_invariant self T cap cap' :
  treasury.invariant self →
  treasury.treasuries self !! T = Some cap →
  treasury.invariant
    {| treasury.treasuries := <[T := cap']> (treasury.treasuries self);
       treasury.supported_tokens := treasury.supported_tokens self;
       treasury.id_token_type_map := treasury.id_token_type_map self;
       treasury.waiting_room := treasury.waiting_room self |}.
Proof.
  intros [Hown Hwcap Hscap Hdisj Hids Hforeign Hnd1 Hnd2] Hcap.
  split; simpl; try done.
  - intros k Hk. rewrite lookup_insert. case_decide; [by eauto | by apply Hwcap].
  - intros k Hk. rewrite lookup_insert. case_decide; [by eauto | by apply Hscap].
Qed.

(** Every treasury the module can build satisfies the invariant. *)
Lemma reachable_invariant self : treasury.reachable self → treasury.invariant self.
Proof.
  induction 1 as [ | T self tc uc metadata self' effects _ IH Hcall
                   | self name token_id native notional self' effects _ IH Hcall
                   | self token_id price self' effects _ IH Hcall
                   | T self token self' effects _ IH Hcall
                   | T self amount c self' _ IH Hcall ].
  - apply create_invariant.
  - by eapply register_invariant.
  - by eapply approve_invariant.
  - by eapply update_invariant.
  - apply burn_Ok in Hcall as (cap & cap' & Hcap & ->).
    by eapply insert_cap_invariant.
  - apply mint_Ok in Hcall as (cap & cap' & Hcap & ->).
    by eapply insert_cap_invariant.
Qed.

End treasury_invariant.

(** ** Byte layout *)

Lemma land_255_byte (x : Z) : 0 <= Z.land x 255 <= 255.
Proof.
  change (Z.land x 255) with (Z.land x (Z.ones 8)).
  rewrite Z.land_ones; [|lia].
  pose proof (Z.mod_pos_bound x (2 ^ 8) eq_refl) as Hb.
  change (2 ^ 8) with 256 in *. lia.
Qed.

(** The eight bytes of a nonce read back, most significant first, as the
    nonce. *)
Lemma u64_be_bytes_value (x : Z) :
  in_u64 x → be_value (message.u64_be_bytes x) = x.
Proof.
  unfold in_u64, MAX_U64, be_value, message.u64_be_bytes. intros Hx. simpl.
  change 255 with (Z.ones 8). rewrite !Z.land_ones by lia.
  rewrite !Z.shiftr_div_pow2 by lia.
  change (2 ^ 8) with 256. change (2 ^ 16) with 65536.
  change (2 ^ 24) with 16777216. change (2 ^ 32) with 4294967296.
  change (2 ^ 40) with 1099511627776. change (2 ^ 48) with 281474976710656.
  change (2 ^ 56) with 72057594037927936.
  Z.div_mod_to_equations; lia.
Qed.

(** The encoding lays the fields out at fixed offsets behind the 18 bytes of
    the tag: type at 18, version at 19, nonce at 20 to 27, chain id at 28 and
    the payload from 29 on. *)
Lemma encodeMessage_layout (m : message.BridgeMessage) :
  length committee.SUI_MESSAGE_PREFIX = 18%nat ∧
  take 18 (BridgeUtils.encodeMessage m) = bytes_of_string "SUI_BRIDGE_MESSAGE" ∧
  BridgeUtils.encodeMessage m !! 18%nat = Some (Z.land (message.messageType m) 255) ∧
  BridgeUtils.encodeMessage m !! 19%nat = Some (Z.land (message.version m) 255) ∧
  take 8 (drop 20 (BridgeUtils.encodeMessage m)) = message.u64_be_bytes (message.nonce m) ∧
  BridgeUtils.encodeMessage m !! 28%nat = Some (Z.land (message.chainID m) 255) ∧
  drop 29 (BridgeUtils.encodeMessage m) = message.payload m ∧
  length (BridgeUtils.encodeMessage m) = (29 + length (message.payload m))%nat.
Proof. repeat split. Qed.

(** * The claims *)

(** ** Message encoding *)

(** C1: the price-update message of the regression test (type
    UPDATE_TOKEN_PRICES, version 1, nonce 266, chain id 3, payload
    01000000003b9aca00) encodes to exactly the expected byte string: the ASCII
    tag SUI_BRIDGE_MESSAGE, one byte of message type, one of version, the
    nonce on eight bytes with the most significant first, one byte of chain
    id, then the payload as it is. *)
Theorem encodeMessage_regression_vector :
  Some (BridgeUtils.encodeMessage BridgeUtils.regression_message) =
    BridgeUtils.expectedEncodedMessage ∧
  BridgeUtils.encodeMessage BridgeUtils.regression_message =
    bytes_of_string "SUI_BRIDGE_MESSAGE" ++ [BridgeUtils.UPDATE_TOKEN_PRICES] ++ [1] ++
    [0; 0; 0; 0; 0; 0; 1; 10] ++ [3] ++ BridgeUtils.regression_payload ∧
  be_value [0; 0; 0; 0; 0; 0; 1; 10] = 266 ∧
  Some BridgeUtils.regression_payload = hex_decode "01000000003b9aca00" ∧
  be_value (drop 1 BridgeUtils.regression_payload) = 0x3b9aca00.
Proof. repeat split; vm_compute; reflexivity. Qed.

(** ** Committee verification *)

(** C2, as amended: when the message type has a threshold and the signatures
    recover to pairwise distinct committee members whose weights add up
    within a u64, verification succeeds exactly when that sum reaches the
    threshold (equality is enough) and aborts with ESignatureBelowThreshold
    otherwise; an empty list fails that way for every positive threshold. *)
Theorem verify_signatures_quorum (recover : ecdsa_k1.ecrecover)
    (self : committee.BridgeCommittee) (m : message.BridgeMessage)
    (signatures keys : list (list Z)) (required : Z) :
  committee.weights_u64 self →
  vec_map.try_get (committee.thresholds self) (message.message_type m) = Some required →
  committee.recovers_to recover m signatures keys →
  NoDup keys →
  Forall (fun key => committee.is_member self key = true) keys →
  committee.total_weight self keys <= MAX_U64 →
  committee.verify_signatures recover self m signatures =
    (if required <=? committee.distinct_member_weight self keys then Ok tt
     else Abort (MoveAbort committee.location committee.ESignatureBelowThreshold)) ∧
  (0 < required →
   committee.verify_signatures recover self m [] =
     Abort (MoveAbort committee.location committee.ESignatureBelowThreshold)).
Proof.
  intros Hwf Hthr Hrec Hnd Hmem Hfit. split.
  - rewrite verify_signatures_tally, (get_try_get _ _ _ Hthr). simpl.
    pose proof (tally_prefix recover self m signatures keys [] [] 0 Hwf Hrec)
      as Htally.
    rewrite app_nil_r in Htally. simpl in Htally.
    rewrite Htally; [| done | done | done | lia]. simpl.
    rewrite (distinct_member_weight_all self keys Hnd Hmem).
    unfold assert. by destruct (required <=? _).
  - intros Hpos. rewrite verify_signatures_tally, (get_try_get _ _ _ Hthr). simpl.
    unfold assert. by rewrite (proj2 (Z.leb_gt _ _) Hpos).
Qed.

(** The test committee (two members of weight 100, threshold 200): both
    members together pass, one alone does not. *)
Lemma verify_signatures_quorum_witness :
  committee.verify_signatures fixtures.recover_as_key committee.setup_test
    fixtures.token_message [committee.test_key_1; committee.test_key_2] = Ok tt ∧
  committee.verify_signatures fixtures.recover_as_key committee.setup_test
    fixtures.token_message [committee.test_key_1] =
    Abort (MoveAbort committee.location committee.ESignatureBelowThreshold) ∧
  committee.verify_signatures fixtures.recover_as_key committee.setup_test
    fixtures.token_message [] =
    Abort (MoveAbort committee.location committee.ESignatureBelowThreshold).
Proof.
  assert (committee.weights_u64 committee.setup_test) as Hwf.
  { repeat constructor; vm_compute; discriminate. }
  assert (vec_map.try_get (committee.thresholds committee.setup_test)
            (message.message_type fixtures.token_message) = Some 200) as Hthr.
  { reflexivity. }
  split; [|split].
  - refine (proj1 (verify_signatures_quorum fixtures.recover_as_key
      committee.setup_test fixtures.token_message
      [committee.test_key_1; committee.test_key_2]
      [committee.test_key_1; committee.test_key_2] 200 Hwf Hthr _ _ _ _)).
    + repeat constructor.
    + apply (bool_decide_unpack _). vm_compute. reflexivity.
    + repeat constructor.
    + vm_compute. discriminate.
  - refine (proj1 (verify_signatures_quorum fixtures.recover_as_key
      committee.setup_test fixtures.token_message
      [committee.test_key_1] [committee.test_key_1] 200 Hwf Hthr _ _ _ _)).
    + repeat constructor.
    + apply (bool_decide_unpack _). vm_compute. reflexivity.
    + repeat constructor.
    + vm_compute. discriminate.
  - refine (proj2 (verify_signatures_quorum fixtures.recover_as_key
      committee.setup_test fixtures.token_message [] [] 200 Hwf Hthr _ _ _ _) _).
    + constructor.
    + constructor.
    + constructor.
    + vm_compute. discriminate.
    + lia.
Defined.

(** The claim as worded fails on a list that repeats a signer: the distinct
    members weigh 100, below the threshold of 200, yet the abort is
    EDuplicatedSignature and not ESignatureBelowThreshold. *)
Lemma quorum_claim_fails_on_repeated_signer :
  committee.distinct_member_weight committee.setup_test
    [committee.test_key_1; committee.test_key_1] = 100 ∧
  committee.verify_signatures fixtures.recover_as_key committee.setup_test
    fixtures.token_message [committee.test_key_1; committee.test_key_1] =
    Abort (MoveAbort committee.location committee.EDuplicatedSignature) ∧
  ¬ stated.quorum_claim fixtures.recover_as_key committee.setup_test
      fixtures.token_message [committee.test_key_1; committee.test_key_1].
Proof.
  split; [vm_compute; reflexivity|]. split; [vm_compute; reflexivity|].
  intros Hclaim.
  specialize (Hclaim 200 [committee.test_key_1; committee.test_key_1] eq_refl).
  assert (committee.recovers_to fixtures.recover_as_key fixtures.token_message
            [committee.test_key_1; committee.test_key_1]
            [committee.test_key_1; committee.test_key_1]) as Hrec.
  { repeat constructor. }
  specialize (Hclaim Hrec). vm_compute in Hclaim. discriminate.
Qed.

(** Two positions of one list cannot hold the same element when the list has
    no repetition. *)
Lemma NoDup_lookup_lt {A} (l : list A) (i j : nat) (x : A) :
  NoDup l → l !! i = Some x → l !! j = Some x → (i < j)%nat → False.
Proof.
  intros Hnd Hi Hj Hlt. pose proof (NoDup_lookup l i j x Hnd Hi Hj). lia.
Qed.

(** C3, as amended: a list in which two signatures recover to the same key is
    never accepted; and when the message type has a threshold and the
    signatures before the repeated one recover to distinct committee members
    whose weights fit a u64, the loop itself aborts with EDuplicatedSignature,
    so the threshold comparison is never reached and the weight is not
    counted a second time. *)
Theorem verify_signatures_duplicate (recover : ecdsa_k1.ecrecover)
    (self : committee.BridgeCommittee) (m : message.BridgeMessage)
    (signatures : list (list Z)) :
  ((∃ (i j : nat) s1 s2 key,
       (i < j)%nat ∧ signatures !! i = Some s1 ∧ signatures !! j = Some s2 ∧
       recover s1 (committee.message_bytes m) 0 = Ok key ∧
       recover s2 (committee.message_bytes m) 0 = Ok key) →
   committee.verify_signatures recover self m signatures ≠ Ok tt) ∧
  (∀ required before signature rest keys key,
     committee.weights_u64 self →
     vec_map.try_get (committee.thresholds self) (message.message_type m) =
       Some required →
     signatures = before ++ signature :: rest →
     committee.recovers_to recover m before keys →
     NoDup keys →
     Forall (fun k => committee.is_member self k = true) keys →
     committee.total_weight self keys <= MAX_U64 →
     recover signature (committee.message_bytes m) 0 = Ok key →
     key ∈ keys →
     committee.tally recover self (committee.message_bytes m) signatures [] 0 =
       Abort (MoveAbort committee.location committee.EDuplicatedSignature) ∧
     committee.verify_signatures recover self m signatures =
       Abort (MoveAbort committee.location committee.EDuplicatedSignature)).
Proof.
  split.
  - intros (i & j & s1 & s2 & key & Hlt & Hi & Hj & Hk1 & Hk2) Hok.
    rewrite verify_signatures_tally in Hok.
    apply bind_Ok in Hok as (required & _ & Hok).
    apply bind_Ok in Hok as (total & Htally & _).
    apply tally_Ok in Htally as (keys & Hrec & Hnd & _).
    specialize (Hnd (NoDup_nil_2)). simpl in Hnd.
    unfold committee.recovers_to in Hrec.
    destruct (Forall2_lookup_l _ _ _ _ _ Hrec Hi) as (k1 & Hki & Hr1).
    destruct (Forall2_lookup_l _ _ _ _ _ Hrec Hj) as (k2 & Hkj & Hr2).
    rewrite Hk1 in Hr1. rewrite Hk2 in Hr2.
    injection Hr1 as <-. injection Hr2 as <-.
    exact (NoDup_lookup_lt keys i j key Hnd Hki Hkj Hlt).
  - intros required before signature rest keys key
      Hwf Hthr -> Hrec Hnd Hmem Hfit Hkey Hin.
    assert (committee.tally recover self (committee.message_bytes m)
              (before ++ signature :: rest) [] 0 =
            Abort (MoveAbort committee.location committee.EDuplicatedSignature))
      as Htally.
    { rewrite (tally_prefix recover self m before keys (signature :: rest) [] 0
                 Hwf Hrec); [| done | done | lia | lia].
      by apply tally_repeated with key. }
    split; [done|].
    rewrite verify_signatures_tally, (get_try_get _ _ _ Hthr). simpl.
    by rewrite Htally.
Qed.

(** The duplicated-signature test of the module: the second member signs
    twice. *)
Lemma verify_signatures_duplicate_witness :
  committee.verify_signatures fixtures.recover_as_key committee.setup_test
    fixtures.token_message [committee.test_key_2; committee.test_key_2] ≠ Ok tt ∧
  committee.verify_signatures fixtures.recover_as_key committee.setup_test
    fixtures.token_message [committee.test_key_2; committee.test_key_2] =
    Abort (MoveAbort committee.location committee.EDuplicatedSignature).
Proof.
  pose proof (verify_signatures_duplicate fixtures.recover_as_key
    committee.setup_test fixtures.token_message
    [committee.test_key_2; committee.test_key_2]) as [Hnever Hdup].
  split.
  - apply Hnever.
    exists 0%nat, 1%nat, committee.test_key_2, committee.test_key_2,
      committee.test_key_2.
    repeat split; lia.
  - refine (proj2 (Hdup 200 [committee.test_key_2] committee.test_key_2 []
      [committee.test_key_2] committee.test_key_2 _ eq_refl eq_refl _ _ _ _ eq_refl _)).
    + repeat constructor; vm_compute; discriminate.
    + repeat constructor.
    + apply (bool_decide_unpack _). vm_compute. reflexivity.
    + repeat constructor.
    + vm_compute. discriminate.
    + apply list_elem_of_here.
Defined.

(** The claim as worded fails when a stranger signs before the repeated
    signer: the abort is EInvalidSignature. *)
Lemma duplicate_claim_fails_after_stranger :
  committee.verify_signatures fixtures.recover_as_key committee.setup_test
    fixtures.token_message
    [fixtures.stranger; committee.test_key_1; committee.test_key_1] =
    Abort (MoveAbort committee.location committee.EInvalidSignature) ∧
  ¬ stated.duplicate_claim fixtures.recover_as_key committee.setup_test
      fixtures.token_message
      [fixtures.stranger; committee.test_key_1; committee.test_key_1].
Proof.
  split; [vm_compute; reflexivity|]. intros Hclaim.
  assert (committee.verify_signatures fixtures.recover_as_key committee.setup_test
            fixtures.token_message
            [fixtures.stranger; committee.test_key_1; committee.test_key_1] =
          Abort (MoveAbort committee.location committee.EDuplicatedSignature))
    as Habort.
  { apply Hclaim.
    exists 1%nat, 2%nat, committee.test_key_1, committee.test_key_1,
      committee.test_key_1.
    repeat split; lia. }
  vm_compute in Habort. discriminate.
Qed.

(** C4, as amended: for a message type without an entry in the thresholds the
    call aborts in the threshold lookup, with the EKeyDoesNotExist of
    sui::vec_map, whatever the signatures are; the message is never
    accepted and no threshold of 0 is assumed. *)
Theorem verify_signatures_unknown_type (recover : ecdsa_k1.ecrecover)
    (self : committee.BridgeCommittee) (m : message.BridgeMessage)
    (signatures : list (list Z)) :
  vec_map.try_get (committee.thresholds self) (message.message_type m) = None →
  committee.verify_signatures recover self m signatures =
    Abort (MoveAbort vec_map.location vec_map.EKeyDoesNotExist) ∧
  committee.verify_signatures recover self m signatures ≠ Ok tt.
Proof.
  intros Hthr.
  assert (committee.verify_signatures recover self m signatures =
          Abort (MoveAbort vec_map.location vec_map.EKeyDoesNotExist)) as Habort.
  { unfold committee.verify_signatures. by rewrite (get_absent _ _ Hthr). }
  split; [done|]. by rewrite Habort.
Qed.

(** A price update sent to the test committee, which knows token messages
    only. *)
Lemma verify_signatures_unknown_type_witness :
  committee.verify_signatures fixtures.recover_as_key committee.setup_test
    fixtures.price_message [committee.test_key_1; committee.test_key_2] =
    Abort (MoveAbort vec_map.location vec_map.EKeyDoesNotExist) ∧
  committee.verify_signatures fixtures.recover_as_key committee.setup_test
    fixtures.price_message [committee.test_key_1; committee.test_key_2] ≠ Ok tt.
Proof.
  apply (verify_signatures_unknown_type fixtures.recover_as_key
    committee.setup_test fixtures.price_message). reflexivity.
Defined.

(** The claim as worded fails: the abort does not come from the committee
    module, which has no code for an unsupported message type. *)
Lemma unsupported_type_claim_fails :
  committee.verify_signatures fixtures.recover_as_key committee.setup_test
    fixtures.price_message [committee.test_key_1; committee.test_key_2] =
    Abort (MoveAbort vec_map.location vec_map.EKeyDoesNotExist) ∧
  ¬ stated.unsupported_type_claim fixtures.recover_as_key committee.setup_test
      fixtures.price_message [committee.test_key_1; committee.test_key_2].
Proof.
  split; [vm_compute; reflexivity|]. intros Hclaim. destruct (Hclaim eq_refl) as [code Hcode].
  vm_compute in Hcode. discriminate.
Qed.

(** ** Token treasury *)

Lemma is_ok_commit (self : treasury.BridgeTreasury)
    (r : result (treasury.BridgeTreasury * list treasury.Effect)) :
  is_ok r = true → r = Ok (fixtures.after self r, (treasury.commit self r).2).
Proof. destruct r as [[self' effects]|e]; [done | discriminate]. Qed.

(** The example treasuries are ones the module builds. *)
Lemma fixtures_reachable :
  treasury.reachable fixtures.registered_Y ∧
  treasury.reachable fixtures.approved_Y ∧
  treasury.reachable fixtures.pending_X ∧
  treasury.reachable fixtures.approved_X.
Proof.
  assert (treasury.reachable fixtures.registered_Y) as H1.
  { eapply treasury.reach_register; [apply treasury.reach_create|].
    apply is_ok_commit. vm_compute. reflexivity. }
  assert (treasury.reachable fixtures.approved_Y) as H2.
  { eapply treasury.reach_approve; [apply H1|].
    apply is_ok_commit. vm_compute. reflexivity. }
  assert (treasury.reachable fixtures.pending_X) as H3.
  { eapply treasury.reach_register; [apply H2|].
    apply is_ok_commit. vm_compute. reflexivity. }
  assert (treasury.reachable fixtures.approved_X) as H4.
  { eapply treasury.reach_approve; [apply H3|].
    apply is_ok_commit. vm_compute. reflexivity. }
  done.
Qed.

(** C5, as amended: for a foreign token type T with a pending registration,
    approve_new_token with a token id that is not yet in id_token_type_map
    and at most 19 recorded decimals removes the pending entry, files under
    T's own key the metadata with id = token_id, decimal_multiplier =
    10^decimals, the given notional value and native_token = false, maps
    token_id to T, freezes the upgrade cap and emits NewTokenEvent; with a
    token id already in use, or with 20 decimals or more, the call aborts. *)
Theorem approve_new_token_promotes (self : treasury.BridgeTreasury) (T : string)
    (token_id notional_value : Z) (registration : treasury.ForeignTokenRegistration) :
  treasury.reachable self →
  treasury.waiting_room self !! type_name.into_string T = Some registration →
  (token_id ∉ vec_map.keys (treasury.id_token_type_map self) →
   0 <= treasury.decimal registration <= 19 →
   ∃ self',
     treasury.approve_new_token self (type_name.into_string T) token_id false
         notional_value =
       Ok (self', [ treasury.public_freeze_object (treasury.uc registration);
                    treasury.emit (treasury.NewTokenEvent token_id T false) ]) ∧
     treasury.waiting_room self' !! type_name.into_string T = None ∧
     vec_map.try_get (treasury.supported_tokens self') T =
       Some {| treasury.id := token_id;
               treasury.decimal_multiplier := 10 ^ treasury.decimal registration;
               treasury.notional_value := notional_value;
               treasury.native_token := false |} ∧
     vec_map.try_get (treasury.id_token_type_map self') token_id = Some T) ∧
  (token_id ∈ vec_map.keys (treasury.id_token_type_map self) →
   0 <= treasury.decimal registration <= 19 →
   treasury.approve_new_token self (type_name.into_string T) token_id false
       notional_value =
     Abort (MoveAbort vec_map.location vec_map.EKeyAlreadyExists)) ∧
  (20 <= treasury.decimal registration <= 255 →
   treasury.approve_new_token self (type_name.into_string T) token_id false
       notional_value = Abort ArithmeticError).
Proof.
  unfold type_name.into_string. intros Hreach Hw.
  destruct (reachable_invariant self Hreach)
    as [Hown Hwcap Hscap Hdisj Hids Hforeign Hnd1 Hnd2].
  pose proof (Hown _ _ Hw) as Hname.
  assert (T ∉ vec_map.keys (treasury.supported_tokens self)) as Hfresh.
  { apply Hdisj. by eauto. }
  split; [|split].
  - intros Hid Hdec. eexists. split.
    + apply approve_new_token_Ok. exists registration, (10 ^ treasury.decimal registration).
      rewrite Hname. repeat split; [done | by apply pow10_fits | done | done].
    + simpl. repeat split.
      * apply lookup_delete_eq.
      * rewrite try_get_app, (proj2 (try_get_None _ _) Hfresh).
        by rewrite decide_True.
      * rewrite try_get_app, (proj2 (try_get_None _ _) Hid).
        by rewrite decide_True.
  - intros Hid Hdec. unfold treasury.approve_new_token, bag.remove. simpl.
    rewrite Hw. simpl. rewrite (pow10_fits _ Hdec). simpl.
    rewrite Hname, (insert_fresh _ _ _ Hfresh). simpl.
    by rewrite (insert_present _ _ _ Hid).
  - intros Hdec. unfold treasury.approve_new_token, bag.remove. simpl.
    rewrite Hw. simpl. by rewrite (pow10_overflows _ Hdec).
Qed.

(** The scenario of the specification: a token with six decimals, approved
    as token 3 with a notional value of 10000, gets the multiplier
    1000000. *)
Lemma approve_new_token_promotes_witness :
  ∃ self',
    treasury.approve_new_token fixtures.pending_X fixtures.COIN_X 3 false 10000 =
      Ok (self', [ treasury.public_freeze_object fixtures.cap_X;
                   treasury.emit (treasury.NewTokenEvent 3 fixtures.COIN_X false) ]) ∧
    treasury.waiting_room self' !! fixtures.COIN_X = None ∧
    vec_map.try_get (treasury.supported_tokens self') fixtures.COIN_X =
      Some {| treasury.id := 3; treasury.decimal_multiplier := 10 ^ 6;
              treasury.notional_value := 10000; treasury.native_token := false |} ∧
    vec_map.try_get (treasury.id_token_type_map self') 3 = Some fixtures.COIN_X.
Proof.
  refine (proj1 (approve_new_token_promotes fixtures.pending_X fixtures.COIN_X 3 10000
    {| treasury.type_name := fixtures.COIN_X; treasury.uc := fixtures.cap_X;
       treasury.decimal := 6 |} _ _) _ _).
  - apply fixtures_reachable.
  - vm_compute. reflexivity.
  - apply (bool_decide_unpack _). vm_compute. reflexivity.
  - simpl. lia.
Defined.

(** The claim as worded fails when the token id is taken: token 1 is COIN_Y,
    so approving the pending COIN_X as token 1 aborts and promotes
    nothing. *)
Lemma approve_claim_fails_on_used_token_id :
  treasury.reachable fixtures.pending_X ∧
  vec_map.try_get (treasury.id_token_type_map fixtures.pending_X) 1 =
    Some fixtures.COIN_Y ∧
  treasury.approve_new_token fixtures.pending_X fixtures.COIN_X 1 false 10000 =
    Abort (MoveAbort vec_map.location vec_map.EKeyAlreadyExists) ∧
  ¬ stated.approve_claim fixtures.pending_X fixtures.COIN_X 1 10000.
Proof.
  split; [apply fixtures_reachable|].
  split; [vm_compute; reflexivity|]. split; [vm_compute; reflexivity|].
  intros Hclaim.
  assert (treasury.waiting_room fixtures.pending_X !!
            type_name.into_string fixtures.COIN_X =
          Some {| treasury.type_name := fixtures.COIN_X; treasury.uc := fixtures.cap_X;
                  treasury.decimal := 6 |}) as Hw.
  { vm_compute. reflexivity. }
  destruct (Hclaim _ Hw) as (self' & Hcall & _).
  vm_compute in Hcall. discriminate.
Qed.

(** The first revision's [create] returns the empty treasury to the system
    sender and aborts for anyone else. *)
Lemma create_v1_sender (ENotSystemAddress : Z) (ctx : tx_context.TxContext) :
  treasury_v1.create ENotSystemAddress ctx =
    if tx_context.sender ctx =? 0 then Ok fixtures.v1_created
    else Abort (MoveAbort treasury.location ENotSystemAddress).
Proof. unfold treasury_v1.create. by destruct (tx_context.sender ctx =? 0). Qed.

(** The first revision files every approved token under the key of BTC
    instead of its own. *)
Lemma approve_new_token_v1_key (T : string) (self self' : treasury_v1.BridgeTreasury)
    (token_id : Z) (effects : list treasury.Effect) :
  treasury_v1.approve_new_token T self token_id false = Ok (self', effects) →
  ∃ metadata,
    treasury_v1.supported_tokens self' =
      treasury_v1.supported_tokens self ++ [(treasury_v1.BTC, metadata)].
Proof.
  unfold treasury_v1.approve_new_token, bag.remove. simpl.
  destruct (treasury_v1.waiting_room self !! T) as [registration|]; simpl; [|done].
  destruct (math.pow 10 _) as [multiplier|]; simpl; [|done].
  destruct (vec_map.insert (treasury_v1.supported_tokens self) _ _)
    as [supported'|] eqn:Hs; simpl; [|done].
  destruct (vec_map.insert (treasury_v1.id_token_type_map self) _ _) as [ids'|];
    simpl; [|done].
  destruct (object_bag.add _ _ _) as [treasuries'|]; simpl; [|done].
  intros [= <- _]. simpl. apply insert_Ok in Hs as [_ ->]. by eexists.
Qed.




(** C7: register_foreign_token checks in the order of the source.  It aborts
    with ETokenSupplyNonZero whenever the treasury cap has minted anything;
    past that check it aborts with EInvalidUpgradeCap whenever the upgrade
    cap's package differs from the package of the coin type; and otherwise
    it stores the pending registration under the type's name, deposits the
    cap and emits TokenRegistrationEvent.  The cap of T is not deposited
    before the call: TreasuryCap<T> is unique and the caller hands it over
    by value. *)
Theorem register_foreign_token_checks (T : string) (self : treasury.BridgeTreasury)
    (tc : coin.TreasuryCap) (uc : package.UpgradeCap) (metadata : coin.CoinMetadata) :
  (coin.total_supply tc ≠ 0 →
   treasury.register_foreign_token T self tc uc metadata =
     Abort (MoveAbort treasury.location treasury.ETokenSupplyNonZero)) ∧
  (coin.total_supply tc = 0 →
   ∀ a, address.from_ascii_bytes (type_name.get_address T) = Ok a →
        package.upgrade_package uc ≠ a →
   treasury.register_foreign_token T self tc uc metadata =
     Abort (MoveAbort treasury.location treasury.EInvalidUpgradeCap)) ∧
  (coin.total_supply tc = 0 →
   address.from_ascii_bytes (type_name.get_address T) =
     Ok (package.upgrade_package uc) →
   treasury.reachable self →
   treasury.treasuries self !! T = None →
   ∃ self',
     treasury.register_foreign_token T self tc uc metadata =
       Ok (self', [treasury.emit
                     (treasury.TokenRegistrationEvent T (coin.decimals metadata) false)]) ∧
     treasury.waiting_room self' !! type_name.into_string T =
       Some {| treasury.type_name := T; treasury.uc := uc;
               treasury.decimal := coin.decimals metadata |} ∧
     treasury.treasuries self' !! T = Some tc ∧
     treasury.supported_tokens self' = treasury.supported_tokens self ∧
     treasury.id_token_type_map self' = treasury.id_token_type_map self).
Proof.
  split; [|split].
  - intros Hsupply. unfold treasury.register_foreign_token.
    by rewrite (proj2 (Z.eqb_neq _ _) Hsupply).
  - intros Hsupply a Ha Hcap. unfold treasury.register_foreign_token.
    rewrite Hsupply, Ha. simpl. by rewrite (proj2 (Z.eqb_neq _ _) Hcap).
  - intros Hsupply Ha Hreach Ht.
    assert (treasury.waiting_room self !! T = None) as Hw.
    { destruct (treasury.waiting_room self !! T) as [r|] eqn:Hw; [|done].
      destruct (treasury.waiting_has_cap self (reachable_invariant self Hreach) T)
        as [cap Hcap]; [by eauto | congruence]. }
    eexists. split; [by apply register_foreign_token_Ok|].
    unfold type_name.into_string. simpl.
    repeat split; apply lookup_insert_eq.
Qed.

Lemma register_foreign_token_checks_witness :
  treasury.register_foreign_token fixtures.COIN_X fixtures.approved_Y
      fixtures.used_cap fixtures.cap_X fixtures.six_decimals =
    Abort (MoveAbort treasury.location treasury.ETokenSupplyNonZero) ∧
  treasury.register_foreign_token fixtures.COIN_X fixtures.approved_Y
      fixtures.fresh_cap fixtures.cap_Y fixtures.six_decimals =
    Abort (MoveAbort treasury.location treasury.EInvalidUpgradeCap) ∧
  ∃ self',
    treasury.register_foreign_token fixtures.COIN_X fixtures.approved_Y
        fixtures.fresh_cap fixtures.cap_X fixtures.six_decimals =
      Ok (self', [treasury.emit (treasury.TokenRegistrationEvent fixtures.COIN_X 6 false)]) ∧
    treasury.waiting_room self' !! type_name.into_string fixtures.COIN_X =
      Some {| treasury.type_name := fixtures.COIN_X; treasury.uc := fixtures.cap_X;
              treasury.decimal := 6 |} ∧
    treasury.treasuries self' !! fixtures.COIN_X = Some fixtures.fresh_cap ∧
    treasury.supported_tokens self' = treasury.supported_tokens fixtures.approved_Y ∧
    treasury.id_token_type_map self' = treasury.id_token_type_map fixtures.approved_Y.
Proof.
  split; [|split].
  - apply (proj1 (register_foreign_token_checks fixtures.COIN_X fixtures.approved_Y
      fixtures.used_cap fixtures.cap_X fixtures.six_decimals)).
    simpl. lia.
  - apply (proj1 (proj2 (register_foreign_token_checks fixtures.COIN_X
      fixtures.approved_Y fixtures.fresh_cap fixtures.cap_Y fixtures.six_decimals))
      eq_refl 12).
    + vm_compute. reflexivity.
    + simpl. lia.
  - apply (proj2 (proj2 (register_foreign_token_checks fixtures.COIN_X
      fixtures.approved_Y fixtures.fresh_cap fixtures.cap_X fixtures.six_decimals))
      eq_refl).
    + vm_compute. reflexivity.
    + apply fixtures_reachable.
    + vm_compute. reflexivity.
Defined.

(** C8: on a treasury the module builds, update_asset_notional_price aborts
    with EUnsupportedTokenType and changes nothing when the token id is not
    in id_token_type_map; otherwise it sets the notional value of the token
    the id maps to, emits UpdateTokenPriceEvent, and leaves that token's id,
    decimal multiplier and native flag, every other token's metadata, the id
    map, the treasuries and the waiting room as they were. *)
Theorem update_asset_notional_price_frame (self : treasury.BridgeTreasury)
    (token_id new_usd_price : Z) :
  treasury.reachable self →
  (vec_map.try_get (treasury.id_token_type_map self) token_id = None →
   treasury.update_asset_notional_price self token_id new_usd_price =
     Abort (MoveAbort treasury.location treasury.EUnsupportedTokenType) ∧
   treasury.commit self
     (treasury.update_asset_notional_price self token_id new_usd_price) = (self, [])) ∧
  (∀ T, vec_map.try_get (treasury.id_token_type_map self) token_id = Some T →
   ∃ metadata self',
     vec_map.try_get (treasury.supported_tokens self) T = Some metadata ∧
     treasury.update_asset_notional_price self token_id new_usd_price =
       Ok (self', [treasury.emit (treasury.UpdateTokenPriceEvent token_id new_usd_price)]) ∧
     vec_map.try_get (treasury.supported_tokens self') T =
       Some {| treasury.id := treasury.id metadata;
               treasury.decimal_multiplier := treasury.decimal_multiplier metadata;
               treasury.notional_value := new_usd_price;
               treasury.native_token := treasury.native_token metadata |} ∧
     (∀ T', T' ≠ T →
        vec_map.try_get (treasury.supported_tokens self') T' =
          vec_map.try_get (treasury.supported_tokens self) T') ∧
     vec_map.keys (treasury.supported_tokens self') =
       vec_map.keys (treasury.supported_tokens self) ∧
     treasury.id_token_type_map self' = treasury.id_token_type_map self ∧
     treasury.treasuries self' = treasury.treasuries self ∧
     treasury.waiting_room self' = treasury.waiting_room self).
Proof.
  intros Hreach. split.
  - intros Hid. unfold treasury.update_asset_notional_price. by rewrite Hid.
  - intros T Hid.
    pose proof (treasury.ids_supported self (reachable_invariant self Hreach)
                  token_id T (try_get_Some_elem _ _ _ Hid)) as HT.
    destruct (proj2 (try_get_is_Some _ _) HT) as [metadata Hmd].
    destruct (update_present _ T (treasury.set_notional_value new_usd_price) HT)
      as [supported' Hup].
    exists metadata. eexists. split; [done|]. split.
    { apply update_asset_notional_price_Ok. by exists T, supported'. }
    simpl. repeat split.
    + rewrite (update_try_get _ _ _ _ T Hup), decide_True; [|done].
      by rewrite Hmd.
    + intros T' Hne. by rewrite (update_try_get _ _ _ _ T' Hup), decide_False.
    + by apply update_keys in Hup.
Qed.

(** The scenario of the specification: token 3 goes from 10000 to 12000 and
    token 1 keeps its price. *)
Lemma update_asset_notional_price_frame_witness :
  (∃ metadata self',
     vec_map.try_get (treasury.supported_tokens fixtures.approved_X) fixtures.COIN_X =
       Some metadata ∧
     treasury.update_asset_notional_price fixtures.approved_X 3 12000 =
       Ok (self', [treasury.emit (treasury.UpdateTokenPriceEvent 3 12000)]) ∧
     vec_map.try_get (treasury.supported_tokens self') fixtures.COIN_X =
       Some {| treasury.id := treasury.id metadata;
               treasury.decimal_multiplier := treasury.decimal_multiplier metadata;
               treasury.notional_value := 12000;
               treasury.native_token := treasury.native_token metadata |} ∧
     (∀ T', T' ≠ fixtures.COIN_X →
        vec_map.try_get (treasury.supported_tokens self') T' =
          vec_map.try_get (treasury.supported_tokens fixtures.approved_X) T') ∧
     vec_map.keys (treasury.supported_tokens self') =
       vec_map.keys (treasury.supported_tokens fixtures.approved_X) ∧
     treasury.id_token_type_map self' = treasury.id_token_type_map fixtures.approved_X ∧
     treasury.treasuries self' = treasury.treasuries fixtures.approved_X ∧
     treasury.waiting_room self' = treasury.waiting_room fixtures.approved_X) ∧
  treasury.update_asset_notional_price fixtures.approved_X 7 12000 =
    Abort (MoveAbort treasury.location treasury.EUnsupportedTokenType) ∧
  treasury.commit fixtures.approved_X
    (treasury.update_asset_notional_price fixtures.approved_X 7 12000) =
    (fixtures.approved_X, []).
Proof.
  pose proof (update_asset_notional_price_frame fixtures.approved_X)
    as Hframe.
  split.
  - apply (proj2 (Hframe 3 12000 (proj2 (proj2 (proj2 fixtures_reachable))))).
    vm_compute. reflexivity.
  - apply (proj1 (Hframe 7 12000 (proj2 (proj2 (proj2 fixtures_reachable))))).
    vm_compute. reflexivity.
Defined.

(** C9, as amended: for a type without a deposited treasury cap (one never
    registered) mint and burn abort with the EFieldDoesNotExist of the
    treasuries bag; for a type with one they do what coin::mint and
    coin::burn do on that cap: mint returns a coin of the requested amount
    and raises the supply by it, burn lowers the supply by the coin's
    value. *)
Theorem mint_burn_pass_through (T : string) (self : treasury.BridgeTreasury) :
  (treasury.treasuries self !! T = None →
   (∀ amount, treasury.mint T self amount =
      Abort (MoveAbort dynamic_field.location dynamic_field.EFieldDoesNotExist)) ∧
   (∀ token, treasury.burn T self token =
      Abort (MoveAbort dynamic_field.location dynamic_field.EFieldDoesNotExist))) ∧
  (∀ cap, treasury.treasuries self !! T = Some cap →
   (∀ amount, amount < MAX_U64 - coin.total_supply cap →
      coin.mint cap amount =
        Ok ({| coin.total_supply := coin.total_supply cap + amount |},
            {| coin.value := amount |}) ∧
      treasury.mint T self amount =
        Ok ({| coin.value := amount |},
            {| treasury.treasuries :=
                 <[T := {| coin.total_supply := coin.total_supply cap + amount |}]>
                   (treasury.treasuries self);
               treasury.supported_tokens := treasury.supported_tokens self;
               treasury.id_token_type_map := treasury.id_token_type_map self;
               treasury.waiting_room := treasury.waiting_room self |})) ∧
   (∀ token, coin.value token <= coin.total_supply cap →
      coin.burn cap token =
        Ok ({| coin.total_supply := coin.total_supply cap - coin.value token |},
            coin.value token) ∧
      treasury.burn T self token =
        Ok ({| treasury.treasuries :=
                 <[T := {| coin.total_supply :=
                             coin.total_supply cap - coin.value token |}]>
                   (treasury.treasuries self);
               treasury.supported_tokens := treasury.supported_tokens self;
               treasury.id_token_type_map := treasury.id_token_type_map self;
               treasury.waiting_room := treasury.waiting_room self |}, [])) ∧
   (∀ amount, is_ok (treasury.mint T self amount) = is_ok (coin.mint cap amount)) ∧
   (∀ token, is_ok (treasury.burn T self token) = is_ok (coin.burn cap token))).
Proof.
  split.
  - intros Hnone. split; intros x.
    + unfold treasury.mint, object_bag.borrow_mut. by rewrite Hnone.
    + unfold treasury.burn, object_bag.borrow_mut. by rewrite Hnone.
  - intros cap Hcap. split; [|split; [|split]].
    + intros amount Hfit. split.
      * unfold coin.mint. by rewrite (proj2 (Z.ltb_lt _ _) Hfit).
      * unfold treasury.mint, object_bag.borrow_mut, coin.mint. rewrite Hcap. simpl.
        by rewrite (proj2 (Z.ltb_lt _ _) Hfit).
    + intros token Hfit. split.
      * unfold coin.burn. by rewrite (proj2 (Z.leb_le _ _) Hfit).
      * unfold treasury.burn, object_bag.borrow_mut, coin.burn. rewrite Hcap. simpl.
        by rewrite (proj2 (Z.leb_le _ _) Hfit).
    + intros amount. unfold treasury.mint, object_bag.borrow_mut. rewrite Hcap. simpl.
      by destruct (coin.mint cap amount) as [[? ?]|].
    + intros token. unfold treasury.burn, object_bag.borrow_mut. rewrite Hcap. simpl.
      by destruct (coin.burn cap token) as [[? ?]|].
Qed.

Lemma mint_burn_pass_through_witness :
  treasury.mint fixtures.COIN_Z fixtures.approved_X 5 =
    Abort (MoveAbort dynamic_field.location dynamic_field.EFieldDoesNotExist) ∧
  treasury.burn fixtures.COIN_Z fixtures.approved_X {| coin.value := 5 |} =
    Abort (MoveAbort dynamic_field.location dynamic_field.EFieldDoesNotExist) ∧
  treasury.mint fixtures.COIN_X fixtures.approved_X 5 =
    Ok ({| coin.value := 5 |},
        {| treasury.treasuries :=
             <[fixtures.COIN_X := {| coin.total_supply := 0 + 5 |}]>
               (treasury.treasuries fixtures.approved_X);
           treasury.supported_tokens := treasury.supported_tokens fixtures.approved_X;
           treasury.id_token_type_map := treasury.id_token_type_map fixtures.approved_X;
           treasury.waiting_room := treasury.waiting_room fixtures.approved_X |}).
Proof.
  pose proof (mint_burn_pass_through fixtures.COIN_Z fixtures.approved_X)
    as [Hnone _].
  pose proof (mint_burn_pass_through fixtures.COIN_X fixtures.approved_X)
    as [_ Hsome].
  assert (treasury.treasuries fixtures.approved_X !! fixtures.COIN_Z = None) as HZ.
  { vm_compute. reflexivity. }
  assert (treasury.treasuries fixtures.approved_X !! fixtures.COIN_X =
          Some fixtures.fresh_cap) as HX.
  { vm_compute. reflexivity. }
  split; [|split].
  - apply (proj1 (Hnone HZ)).
  - apply (proj2 (Hnone HZ)).
  - apply (proj1 (Hsome _ HX) 5). vm_compute. reflexivity.
Defined.

(** The claim as worded fails: the abort of a mint for a type without a
    treasury cap is the bag's EFieldDoesNotExist, not the treasury's
    EUnsupportedTokenType. *)
Lemma mint_burn_claim_fails_on_error_code :
  treasury.reachable fixtures.approved_X ∧
  treasury.mint fixtures.COIN_Z fixtures.approved_X 5 =
    Abort (MoveAbort dynamic_field.location dynamic_field.EFieldDoesNotExist) ∧
  treasury.burn fixtures.COIN_Z fixtures.approved_X {| coin.value := 5 |} =
    Abort (MoveAbort dynamic_field.location dynamic_field.EFieldDoesNotExist) ∧
  ¬ stated.mint_burn_claim fixtures.COIN_Z fixtures.approved_X.
Proof.
  split; [apply fixtures_reachable|].
  split; [vm_compute; reflexivity|]. split; [vm_compute; reflexivity|].
  intros Hclaim.
  assert (treasury.treasuries fixtures.approved_X !! fixtures.COIN_Z = None) as HZ.
  { vm_compute. reflexivity. }
  destruct (Hclaim HZ) as [Hmint _]. specialize (Hmint 5).
  vm_compute in Hmint. discriminate.
Qed.

(** C10: approve_new_token with native_token = true returns without touching
    anything, for every treasury, token name, token id and notional value:
    the waiting room, the supported tokens, the id map and the treasuries
    stay as they are, nothing is emitted and the call does not abort (the
    same holds in the first revision); hence no treasury the module builds
    holds a supported token flagged native. *)
Theorem approve_new_token_native_noop :
  (∀ (self : treasury.BridgeTreasury) (token_name : string)
     (token_id notional_value : Z),
     treasury.approve_new_token self token_name token_id true notional_value =
       Ok (self, []) ∧
     treasury.commit self
       (treasury.approve_new_token self token_name token_id true notional_value) =
       (self, [])) ∧
  (∀ (T : string) (self : treasury_v1.BridgeTreasury) (token_id : Z),
     treasury_v1.approve_new_token T self token_id true = Ok (self, [])) ∧
  (∀ (self : treasury.BridgeTreasury), treasury.reachable self →
     ∀ T metadata,
       vec_map.try_get (treasury.supported_tokens self) T = Some metadata →
       treasury.native_token metadata = false).
Proof.
  split; [done|]. split; [done|].
  intros self Hreach T metadata Hmd.
  apply (treasury.all_foreign self (reachable_invariant self Hreach) T).
  by apply try_get_Some_elem.
Qed.

Lemma approve_new_token_native_noop_witness :
  treasury.approve_new_token fixtures.pending_X fixtures.COIN_X 3 true 10000 =
    Ok (fixtures.pending_X, []) ∧
  treasury.native_token
    {| treasury.id := 3; treasury.decimal_multiplier := 1000000;
       treasury.notional_value := 10000; treasury.native_token := false |} = false.
Proof.
  destruct approve_new_token_native_noop as (Hnoop & _ & Hforeign).
  split.
  - apply (proj1 (Hnoop fixtures.pending_X fixtures.COIN_X 3 10000)).
  - apply (Hforeign fixtures.approved_X (proj2 (proj2 (proj2 fixtures_reachable)))
      fixtures.COIN_X).
    vm_compute. reflexivity.
Defined.

(** * Further properties of the code *)

(** ** Committee: acceptance *)

Section committee_acceptance.
Variable recover : ecdsa_k1.ecrecover.
Implicit Types (self : committee.BridgeCommittee) (m : message.BridgeMessage).
Implicit Types (signatures seen keys : list (list Z)) (key : list Z).

Lemma get_Ok {K V} `{EqDecision K} (l : vec_map.VecMap K V) (k : K) (v : V) :
  vec_map.get l k = Ok v ↔ vec_map.try_get l k = Some v.
Proof.
  unfold vec_map.get. destruct (vec_map.try_get l k); split; congruence.
Qed.

(** The running total never leaves the [u64] range. *)
Lemma tally_Ok_fits self bytes signatures seen acc total :
  acc <= MAX_U64 →
  committee.tally recover self bytes signatures seen acc = Ok total →
  total <= MAX_U64.
Proof.
  revert seen acc. induction signatures as [|signature signatures IH];
    intros seen acc Hacc Htally; simpl in Htally.
  - by injection Htally as <-.
  - apply bind_Ok in Htally as (key & _ & Htally).
    apply bind_Ok in Htally as ([] & _ & Htally).
    apply bind_Ok in Htally as ([] & _ & Htally).
    apply bind_Ok in Htally as (weight & _ & Htally).
    apply bind_Ok in Htally as (acc' & Hadd & Htally).
    apply add_u64_Ok in Hadd as [-> Hfit]. by eapply IH.
Qed.

(** Whatever is accepted has a quorum of distinct members behind it. *)
Lemma verify_signatures_Ok_inv self m signatures :
  committee.verify_signatures recover self m signatures = Ok tt →
  ∃ required keys,
    vec_map.try_get (committee.thresholds self) (message.message_type m) =
      Some required ∧
    committee.recovers_to recover m signatures keys ∧
    NoDup keys ∧
    Forall (fun key => committee.is_member self key = true) keys ∧
    committee.total_weight self keys <= MAX_U64 ∧
    required <= committee.total_weight self keys.
Proof.
  rewrite verify_signatures_tally. intros Hok.
  apply bind_Ok in Hok as (required & Hthr & Hok).
  apply bind_Ok in Hok as (total & Htally & Hquorum).
  apply get_Ok in Hthr. apply assert_Ok, Z.leb_le in Hquorum.
  assert (0 <= MAX_U64) as Hzero by (unfold MAX_U64; lia).
  pose proof (tally_Ok_fits _ _ _ _ _ _ Hzero Htally) as Hfit.
  apply tally_Ok in Htally as (keys & Hrec & Hnd & Hmem & ->).
  exists required, keys. rewrite Z.add_0_l in *.
  repeat split; [done | done | by apply Hnd, NoDup_nil_2 | done | done | done].
Qed.

(** A quorum of distinct members is accepted. *)
Lemma verify_signatures_Ok_intro self m signatures required keys :
  committee.weights_u64 self →
  vec_map.try_get (committee.thresholds self) (message.message_type m) =
    Some required →
  committee.recovers_to recover m signatures keys →
  NoDup keys →
  Forall (fun key => committee.is_member self key = true) keys →
  committee.total_weight self keys <= MAX_U64 →
  required <= committee.total_weight self keys →
  committee.verify_signatures recover self m signatures = Ok tt.
Proof.
  intros Hwf Hthr Hrec Hnd Hmem Hfit Hquorum.
  rewrite verify_signatures_tally, (get_try_get _ _ _ Hthr). simpl.
  pose proof (tally_prefix recover self m signatures keys [] [] 0 Hwf Hrec)
    as Htally.
  rewrite app_nil_r in Htally. simpl in Htally.
  rewrite Htally; [| done | done | done | lia]. simpl.
  rewrite Z.add_0_l. unfold assert. by rewrite (proj2 (Z.leb_le _ _) Hquorum).
Qed.

(** Shuffled signatures recover to the shuffled keys. *)
Lemma recovers_to_Permutation m signatures signatures' keys :
  signatures ≡ₚ signatures' →
  committee.recovers_to recover m signatures keys →
  ∃ keys', keys ≡ₚ keys' ∧ committee.recovers_to recover m signatures' keys'.
Proof.
  unfold committee.recovers_to. intros Hperm. revert keys.
  induction Hperm as [|s l l' _ IH|s1 s2 l|l1 l2 l3 _ IH1 _ IH2]; intros keys Hrec.
  - apply Forall2_nil_inv_l in Hrec as ->. by exists [].
  - apply Forall2_cons_inv_l in Hrec as (k & ks & Hk & Hks & ->).
    destruct (IH ks Hks) as (ks' & Hp & Hrec').
    exists (k :: ks'). split; [by constructor | by constructor].
  - apply Forall2_cons_inv_l in Hrec as (k1 & ks & Hk1 & Hks & ->).
    apply Forall2_cons_inv_l in Hks as (k2 & ks' & Hk2 & Hks & ->).
    exists (k2 :: k1 :: ks'). split; [apply perm_swap|].
    by repeat constructor.
  - destruct (IH1 keys Hrec) as (keys2 & Hp1 & Hrec2).
    destruct (IH2 keys2 Hrec2) as (keys3 & Hp2 & Hrec3).
    exists keys3. split; [by etrans | done].
Qed.

Lemma total_weight_Permutation self keys keys' :
  keys ≡ₚ keys' → committee.total_weight self keys = committee.total_weight self keys'.
Proof.
  induction 1 as [|k l l' _ IH|k1 k2 l|l1 l2 l3 _ IH1 _ IH2]; simpl; lia.
Qed.

(** A signature of a stranger stops the loop. *)
Lemma tally_stranger self bytes signature rest seen acc key :
  recover signature bytes 0 = Ok key → key ∉ seen →
  committee.is_member self key = false →
  committee.tally recover self bytes (signature :: rest) seen acc =
    Abort (MoveAbort committee.location committee.EInvalidSignature).
Proof.
  intros Hkey Hseen Hmem. simpl. rewrite Hkey. simpl.
  assert (vec_set.contains seen key = false) as ->.
  { destruct (vec_set.contains seen key) eqn:Hc; [|done].
    by apply vec_set_contains_true in Hc. }
  simpl. unfold committee.is_member in Hmem. by rewrite Hmem.
Qed.

(** A member whose weight does not fit stops the loop. *)
Lemma tally_overflow self bytes signature rest seen acc key :
  recover signature bytes 0 = Ok key → key ∉ seen →
  committee.is_member self key = true →
  MAX_U64 < acc + committee.weight_of self key →
  committee.tally recover self bytes (signature :: rest) seen acc =
    Abort ArithmeticError.
Proof.
  intros Hkey Hseen Hmem Hover. simpl. rewrite Hkey. simpl.
  assert (vec_set.contains seen key = false) as ->.
  { destruct (vec_set.contains seen key) eqn:Hc; [|done].
    by apply vec_set_contains_true in Hc. }
  simpl. pose proof Hmem as Hmem'. unfold committee.is_member in Hmem'.
  rewrite Hmem'. simpl. rewrite (weight_of_get self key Hmem). simpl.
  unfold add_u64. by rewrite (proj2 (Z.leb_gt _ _) Hover).
Qed.

End committee_acceptance.

(** X1: with weights in u64, verify_signatures returns exactly when the
    message type has a threshold, every signature recovers, the recovered
    keys are pairwise distinct committee members, their weights add up
    within a u64 and the sum reaches the threshold. *)
Theorem verify_signatures_accepts_iff (recover : ecdsa_k1.ecrecover)
    (self : committee.BridgeCommittee) (m : message.BridgeMessage)
    (signatures : list (list Z)) :
  committee.weights_u64 self →
  (committee.verify_signatures recover self m signatures = Ok tt ↔
   ∃ required keys,
     vec_map.try_get (committee.thresholds self) (message.message_type m) =
       Some required ∧
     committee.recovers_to recover m signatures keys ∧
     NoDup keys ∧
     Forall (fun key => committee.is_member self key = true) keys ∧
     committee.total_weight self keys <= MAX_U64 ∧
     required <= committee.total_weight self keys).
Proof.
  intros Hwf. split.
  - apply verify_signatures_Ok_inv.
  - intros (required & keys & Hthr & Hrec & Hnd & Hmem & Hfit & Hquorum).
    by eapply verify_signatures_Ok_intro.
Qed.

Lemma verify_signatures_accepts_iff_witness :
  committee.verify_signatures fixtures.recover_as_key committee.setup_test
    fixtures.token_message [committee.test_key_1; committee.test_key_2] = Ok tt.
Proof.
  apply (proj2 (verify_signatures_accepts_iff fixtures.recover_as_key
    committee.setup_test fixtures.token_message
    [committee.test_key_1; committee.test_key_2]
    ltac:(repeat constructor; vm_compute; discriminate))).
  exists 200, [committee.test_key_1; committee.test_key_2].
  split; [reflexivity|]. split; [repeat constructor|].
  split; [apply (bool_decide_unpack _); vm_compute; reflexivity|].
  split; [repeat constructor|].
  split; vm_compute; discriminate.
Defined.

(** X2: acceptance does not depend on the order of the signatures: a list
    that is accepted is accepted in every other order. *)
Theorem verify_signatures_order_irrelevant (recover : ecdsa_k1.ecrecover)
    (self : committee.BridgeCommittee) (m : message.BridgeMessage)
    (signatures signatures' : list (list Z)) :
  committee.weights_u64 self →
  signatures ≡ₚ signatures' →
  committee.verify_signatures recover self m signatures = Ok tt →
  committee.verify_signatures recover self m signatures' = Ok tt.
Proof.
  intros Hwf Hperm Hok.
  apply verify_signatures_Ok_inv in Hok
    as (required & keys & Hthr & Hrec & Hnd & Hmem & Hfit & Hquorum).
  destruct (recovers_to_Permutation recover m _ _ _ Hperm Hrec)
    as (keys' & Hkeys & Hrec').
  apply (verify_signatures_Ok_intro recover self m signatures' required keys');
    [done | done | done | | | | ].
  - by rewrite <- Hkeys.
  - by rewrite <- Hkeys.
  - by rewrite <- (total_weight_Permutation self keys keys' Hkeys).
  - by rewrite <- (total_weight_Permutation self keys keys' Hkeys).
Qed.

Lemma verify_signatures_order_irrelevant_witness :
  committee.verify_signatures fixtures.recover_as_key committee.setup_test
    fixtures.token_message [committee.test_key_2; committee.test_key_1] = Ok tt.
Proof.
  apply (verify_signatures_order_irrelevant fixtures.recover_as_key
    committee.setup_test fixtures.token_message
    [committee.test_key_1; committee.test_key_2]
    [committee.test_key_2; committee.test_key_1]).
  - repeat constructor; vm_compute; discriminate.
  - apply perm_swap.
  - vm_compute. reflexivity.
Defined.

(** X3: a signature that recovers to a key outside the committee is never
    accepted, and when the signatures before it are those of distinct
    members (threshold configured, weights within u64) the call aborts with
    EInvalidSignature, however many valid signatures follow. *)
Theorem verify_signatures_stranger (recover : ecdsa_k1.ecrecover)
    (self : committee.BridgeCommittee) (m : message.BridgeMessage)
    (before rest keys : list (list Z)) (signature key : list Z) :
  recover signature (committee.message_bytes m) 0 = Ok key →
  committee.is_member self key = false →
  committee.verify_signatures recover self m (before ++ signature :: rest) ≠ Ok tt ∧
  (∀ required,
     committee.weights_u64 self →
     vec_map.try_get (committee.thresholds self) (message.message_type m) =
       Some required →
     committee.recovers_to recover m before keys →
     NoDup keys →
     Forall (fun k => committee.is_member self k = true) keys →
     committee.total_weight self keys <= MAX_U64 →
     committee.verify_signatures recover self m (before ++ signature :: rest) =
       Abort (MoveAbort committee.location committee.EInvalidSignature)).
Proof.
  intros Hkey Hstranger. split.
  - intros Hok.
    apply verify_signatures_Ok_inv in Hok as (required & ks & _ & Hrec & _ & Hmem & _).
    unfold committee.recovers_to in Hrec.
    apply Forall2_app_inv_l in Hrec as (ks1 & ks2 & _ & Hrec & ->).
    apply Forall2_cons_inv_l in Hrec as (k & ks3 & Hk & _ & ->).
    rewrite Hkey in Hk. injection Hk as <-.
    apply Forall_app in Hmem as [_ Hmem]. apply Forall_cons in Hmem as [Hmem _].
    congruence.
  - intros required Hwf Hthr Hrec Hnd Hmem Hfit.
    rewrite verify_signatures_tally, (get_try_get _ _ _ Hthr). simpl.
    rewrite (tally_prefix recover self m before keys (signature :: rest) [] 0
               Hwf Hrec); [| done | done | lia | lia].
    rewrite (tally_stranger recover self _ signature rest _ _ key Hkey); [done | | done].
    simpl. intros Hin. rewrite Forall_forall in Hmem.
    specialize (Hmem _ Hin). congruence.
Qed.

(** The invalid-signature test of the module, with a member signing first. *)
Lemma verify_signatures_stranger_witness :
  committee.verify_signatures fixtures.recover_as_key committee.setup_test
    fixtures.token_message
    ([committee.test_key_1] ++ fixtures.stranger :: [committee.test_key_2]) ≠ Ok tt ∧
  committee.verify_signatures fixtures.recover_as_key committee.setup_test
    fixtures.token_message
    ([committee.test_key_1] ++ fixtures.stranger :: [committee.test_key_2]) =
    Abort (MoveAbort committee.location committee.EInvalidSignature).
Proof.
  pose proof (verify_signatures_stranger fixtures.recover_as_key committee.setup_test
    fixtures.token_message [committee.test_key_1] [committee.test_key_2]
    [committee.test_key_1] fixtures.stranger fixtures.stranger eq_refl eq_refl)
    as [Hnever Habort].
  split; [exact Hnever|].
  apply (Habort 200).
  - repeat constructor; vm_compute; discriminate.
  - reflexivity.
  - repeat constructor.
  - apply (bool_decide_unpack _). vm_compute. reflexivity.
  - repeat constructor.
  - vm_compute. discriminate.
Defined.

(** X4: a signature from which no key can be recovered is never accepted,
    and when the signatures before it are those of distinct members the call
    ends with the very abort of the recovery. *)
Theorem verify_signatures_recovery_abort (recover : ecdsa_k1.ecrecover)
    (self : committee.BridgeCommittee) (m : message.BridgeMessage)
    (before rest keys : list (list Z)) (signature : list Z) (e : error) :
  recover signature (committee.message_bytes m) 0 = Abort e →
  committee.verify_signatures recover self m (before ++ signature :: rest) ≠ Ok tt ∧
  (∀ required,
     committee.weights_u64 self →
     vec_map.try_get (committee.thresholds self) (message.message_type m) =
       Some required →
     committee.recovers_to recover m before keys →
     NoDup keys →
     Forall (fun k => committee.is_member self k = true) keys →
     committee.total_weight self keys <= MAX_U64 →
     committee.verify_signatures recover self m (before ++ signature :: rest) =
       Abort e).
Proof.
  intros Hfail. split.
  - intros Hok.
    apply verify_signatures_Ok_inv in Hok as (required & ks & _ & Hrec & _).
    unfold committee.recovers_to in Hrec.
    apply Forall2_app_inv_l in Hrec as (ks1 & ks2 & _ & Hrec & ->).
    apply Forall2_cons_inv_l in Hrec as (k & ks3 & Hk & _ & ->).
    congruence.
  - intros required Hwf Hthr Hrec Hnd Hmem Hfit.
    rewrite verify_signatures_tally, (get_try_get _ _ _ Hthr). simpl.
    rewrite (tally_prefix recover self m before keys (signature :: rest) [] 0
               Hwf Hrec); [| done | done | lia | lia].
    simpl. by rewrite Hfail.
Qed.

Lemma verify_signatures_recovery_abort_witness :
  committee.verify_signatures fixtures.recover_nonempty committee.setup_test
    fixtures.token_message ([committee.test_key_1] ++ [] :: [committee.test_key_2]) ≠
    Ok tt ∧
  committee.verify_signatures fixtures.recover_nonempty committee.setup_test
    fixtures.token_message ([committee.test_key_1] ++ [] :: [committee.test_key_2]) =
    Abort (MoveAbort "sui::ecdsa_k1" 0).
Proof.
  pose proof (verify_signatures_recovery_abort fixtures.recover_nonempty
    committee.setup_test fixtures.token_message [committee.test_key_1]
    [committee.test_key_2] [committee.test_key_1] [] (MoveAbort "sui::ecdsa_k1" 0)
    eq_refl) as [Hnever Habort].
  split; [exact Hnever|].
  apply (Habort 200).
  - repeat constructor; vm_compute; discriminate.
  - reflexivity.
  - repeat constructor.
  - apply (bool_decide_unpack _). vm_compute. reflexivity.
  - repeat constructor.
  - vm_compute. discriminate.
Defined.

(** X5: the accumulated weight never wraps around: when a further member's
    weight would take the running sum past the largest u64 the call aborts
    with an arithmetic error instead of comparing a wrapped sum with the
    threshold. *)
Theorem verify_signatures_weight_overflow (recover : ecdsa_k1.ecrecover)
    (self : committee.BridgeCommittee) (m : message.BridgeMessage)
    (before rest keys : list (list Z)) (signature key : list Z) (required : Z) :
  committee.weights_u64 self →
  vec_map.try_get (committee.thresholds self) (message.message_type m) =
    Some required →
  committee.recovers_to recover m before keys →
  NoDup keys →
  Forall (fun k => committee.is_member self k = true) keys →
  committee.total_weight self keys <= MAX_U64 →
  recover signature (committee.message_bytes m) 0 = Ok key →
  key ∉ keys →
  committee.is_member self key = true →
  MAX_U64 < committee.total_weight self keys + committee.weight_of self key →
  committee.verify_signatures recover self m (before ++ signature :: rest) =
    Abort ArithmeticError.
Proof.
  intros Hwf Hthr Hrec Hnd Hmem Hfit Hkey Hnew Hmember Hover.
  rewrite verify_signatures_tally, (get_try_get _ _ _ Hthr). simpl.
  rewrite (tally_prefix recover self m before keys (signature :: rest) [] 0
             Hwf Hrec); [| done | done | lia | lia].
  by rewrite (tally_overflow recover self _ signature rest _ _ key Hkey).
Qed.

Lemma verify_signatures_weight_overflow_witness :
  committee.verify_signatures fixtures.recover_as_key fixtures.heavy_committee
    fixtures.token_message ([[1]] ++ [2] :: []) = Abort ArithmeticError.
Proof.
  apply (verify_signatures_weight_overflow fixtures.recover_as_key
    fixtures.heavy_committee fixtures.token_message [[1]] [] [[1]] [2] [2] 1).
  - repeat constructor; vm_compute; discriminate.
  - reflexivity.
  - repeat constructor.
  - apply (bool_decide_unpack _). vm_compute. reflexivity.
  - repeat constructor.
  - vm_compute. discriminate.
  - reflexivity.
  - apply (bool_decide_unpack _). vm_compute. reflexivity.
  - reflexivity.
  - vm_compute. reflexivity.
Defined.

(** The members of the genesis committee weigh 10 each. *)
Lemma genesis_member_weight (key : list Z) :
  committee.is_member fixtures.genesis key = true →
  committee.weight_of fixtures.genesis key = 10.
Proof.
  unfold committee.is_member, committee.weight_of, fixtures.genesis. simpl.
  intros Hmem. rewrite !try_get_cons, try_get_nil.
  apply contains_true in Hmem. unfold vec_map.keys in Hmem. simpl in Hmem.
  repeat case_decide; try done.
  apply elem_of_cons in Hmem as [->|Hmem]; [done|].
  apply elem_of_cons in Hmem as [->|Hmem]; [done|].
  by apply elem_of_nil in Hmem.
Qed.

(** X6: only the system address can create the committee (any other sender
    aborts with ENotSystemAddress), and in the committee it creates the
    threshold for token messages equals the weight of one member: a single
    member's signature authorises a token message, no signature at all does
    not, and every other message type is refused. *)
Theorem create_genesis_committee (ctx : tx_context.TxContext) :
  (tx_context.sender ctx ≠ 0 →
   committee.create ctx =
     Abort (MoveAbort committee.location committee.ENotSystemAddress)) ∧
  (tx_context.sender ctx = 0 →
   committee.create ctx = Ok fixtures.genesis ∧
   (∀ (recover : ecdsa_k1.ecrecover) m signature key,
      message.message_type m = message_types.token →
      recover signature (committee.message_bytes m) 0 = Ok key →
      committee.is_member fixtures.genesis key = true →
      committee.verify_signatures recover fixtures.genesis m [signature] = Ok tt) ∧
   (∀ (recover : ecdsa_k1.ecrecover) m,
      message.message_type m = message_types.token →
      committee.verify_signatures recover fixtures.genesis m [] =
        Abort (MoveAbort committee.location committee.ESignatureBelowThreshold)) ∧
   (∀ (recover : ecdsa_k1.ecrecover) m signatures,
      message.message_type m ≠ message_types.token →
      committee.verify_signatures recover fixtures.genesis m signatures =
        Abort (MoveAbort vec_map.location vec_map.EKeyDoesNotExist))).
Proof.
  split.
  - intros Hsender. unfold committee.create.
    by rewrite (proj2 (Z.eqb_neq _ _) Hsender).
  - intros Hsender. split; [|split; [|split]].
    + unfold committee.create. rewrite Hsender. vm_compute. reflexivity.
    + intros recover m signature key Htype Hkey Hmem.
      apply (verify_signatures_Ok_intro recover fixtures.genesis m [signature] 10 [key]).
      * repeat constructor; vm_compute; discriminate.
      * rewrite Htype. reflexivity.
      * by repeat constructor.
      * apply NoDup_singleton.
      * by repeat constructor.
      * simpl. rewrite (genesis_member_weight key Hmem). vm_compute. discriminate.
      * simpl. rewrite (genesis_member_weight key Hmem). lia.
    + intros recover m Htype. rewrite verify_signatures_tally.
      rewrite Htype. reflexivity.
    + intros recover m signatures Htype. unfold committee.verify_signatures.
      rewrite (get_absent (committee.thresholds fixtures.genesis)
                 (message.message_type m)); [done|].
      simpl. rewrite try_get_cons, try_get_nil.
      rewrite decide_False; [done|]. congruence.
Qed.

Lemma create_genesis_committee_witness :
  committee.create fixtures.system_ctx = Ok fixtures.genesis ∧
  committee.verify_signatures fixtures.recover_as_key fixtures.genesis
    fixtures.token_message [committee.test_key_2] = Ok tt ∧
  committee.create {| tx_context.sender := 7; tx_context.epoch := 0 |} =
    Abort (MoveAbort committee.location committee.ENotSystemAddress).
Proof.
  split; [|split].
  - apply (proj2 (create_genesis_committee fixtures.system_ctx) eq_refl).
  - apply (proj1 (proj2 (proj2 (create_genesis_committee fixtures.system_ctx) eq_refl))
      fixtures.recover_as_key fixtures.token_message committee.test_key_2
      committee.test_key_2); reflexivity.
  - apply (proj1 (create_genesis_committee
      {| tx_context.sender := 7; tx_context.epoch := 0 |})).
    simpl. lia.
Defined.

(** ** Treasury: what the getters see *)

Section treasury_registry.
Implicit Types (self : treasury.BridgeTreasury) (T : string).

Lemma get_token_metadata_eq T self :
  treasury.get_token_metadata T self =
    match vec_map.try_get (treasury.supported_tokens self) T with
    | Some metadata => Ok metadata
    | None => Abort (MoveAbort treasury.location treasury.EUnsupportedTokenType)
    end.
Proof.
  unfold treasury.get_token_metadata.
  by destruct (vec_map.try_get (treasury.supported_tokens self) T).
Qed.

Lemma update_elem_rev {K V} `{EqDecision K} (l l' : vec_map.VecMap K V)
    (key : K) (f : V → V) (k : K) (v : V) :
  vec_map.update l key f = Ok l' → (k, v) ∈ l →
  ∃ v', (k, v') ∈ l' ∧ (v' = v ∨ v' = f v).
Proof.
  revert l'. induction l as [|[k0 v0] l IH]; intros l'.
  - by rewrite update_nil.
  - rewrite update_cons. destruct (decide (k0 = key)) as [->|Hk].
    + intros [= <-] [[= -> ->]|Hin]%elem_of_cons.
      * exists (f v0). split; [apply list_elem_of_here | by right].
      * exists v. split; [by apply list_elem_of_further | by left].
    + destruct (vec_map.update l key f) as [r|] eqn:Hr; [|done].
      intros [= <-] [[= -> ->]|Hin]%elem_of_cons.
      * exists v0. split; [apply list_elem_of_here | by left].
      * destruct (IH r eq_refl Hin) as (v' & Hv & Hor).
        exists v'. split; [by apply list_elem_of_further | done].
Qed.

Lemma create_ids_agree : treasury.ids_agree treasury.create.
Proof.
  intros token_id T. simpl. split.
  - intros Hin. by apply elem_of_nil in Hin.
  - intros (metadata & Hin & _). by apply elem_of_nil in Hin.
Qed.

(** Every call keeps the id map and the metadata in step. *)
Lemma step_ids_agree self self' :
  treasury.step self self' → treasury.ids_agree self → treasury.ids_agree self'.
Proof.
  intros Hstep Hagree.
  destruct Hstep as [ T self tc uc metadata self' effects Hcall
                    | self name token_id native notional self' effects Hcall
                    | self token_id price self' effects Hcall
                    | T self token self' effects Hcall
                    | T self amount c self' Hcall ].
  - apply register_foreign_token_Ok in Hcall as (_ & _ & _ & _ & -> & _). done.
  - destruct native.
    { rewrite approve_new_token_native in Hcall. by injection Hcall as <- _. }
    apply approve_new_token_Ok in Hcall
      as (registration & multiplier & _ & _ & _ & _ & -> & _).
    intros i T'. simpl. rewrite !elem_of_app, !list_elem_of_singleton.
    rewrite (Hagree i T'). split.
    + intros [(md & Hin & Hid) | [= -> ->]].
      * exists md. split; [by apply elem_of_app; left | done].
      * eexists. split; [apply elem_of_app; right; apply list_elem_of_singleton|];
          done.
    + intros (md & Hin & Hid). apply elem_of_app in Hin as [Hin | Hin].
      * left. by exists md.
      * apply list_elem_of_singleton in Hin. injection Hin as -> ->.
        simpl in Hid. subst i. by right.
  - apply update_asset_notional_price_Ok in Hcall as (T & supported' & _ & Hup & -> & _).
    intros i T'. simpl. rewrite (Hagree i T'). split.
    + intros (md & Hin & Hid).
      destruct (update_elem_rev _ _ _ _ _ _ Hup Hin) as (md' & Hin' & [-> | ->]);
        by eexists.
    + intros (md' & Hin' & Hid).
      destruct (update_elem _ _ _ _ _ _ Hup Hin') as (md & Hin & [-> | ->]);
        by eexists.
  - apply burn_Ok in Hcall as (cap & cap' & _ & ->). done.
  - apply mint_Ok in Hcall as (cap & cap' & _ & ->). done.
Qed.

Lemma reachable_ids_agree self : treasury.reachable self → treasury.ids_agree self.
Proof.
  induction 1 as [ | T self tc uc metadata self' effects _ IH Hcall
                   | self name token_id native notional self' effects _ IH Hcall
                   | self token_id price self' effects _ IH Hcall
                   | T self token self' effects _ IH Hcall
                   | T self amount c self' _ IH Hcall ].
  - apply create_ids_agree.
  - eapply step_ids_agree; [by eapply treasury.step_register | done].
  - eapply step_ids_agree; [by eapply treasury.step_approve | done].
  - eapply step_ids_agree; [by eapply treasury.step_update | done].
  - eapply step_ids_agree; [by eapply treasury.step_burn | done].
  - eapply step_ids_agree; [by eapply treasury.step_mint | done].
Qed.

End treasury_registry.

(** X7: on a treasury the module builds, a token that is only registered and
    still waits for approval, and a token that was never registered at all,
    are invisible to the getters: token_id, decimal_multiplier and
    notional_value abort with EUnsupportedTokenType. *)
Theorem getters_need_approval (self : treasury.BridgeTreasury) (T : string) :
  treasury.reachable self →
  is_Some (treasury.waiting_room self !! T) ∨ treasury.treasuries self !! T = None →
  treasury.token_id T self =
    Abort (MoveAbort treasury.location treasury.EUnsupportedTokenType) ∧
  treasury.get_decimal_multiplier T self =
    Abort (MoveAbort treasury.location treasury.EUnsupportedTokenType) ∧
  treasury.get_notional_value T self =
    Abort (MoveAbort treasury.location treasury.EUnsupportedTokenType).
Proof.
  intros Hreach Hcase.
  pose proof (reachable_invariant self Hreach) as Hinv.
  assert (vec_map.try_get (treasury.supported_tokens self) T = None) as Hnone.
  { apply try_get_None. destruct Hcase as [Hwait | Hcap].
    - by apply (treasury.waiting_not_supported self Hinv).
    - intros Hin. apply (treasury.supported_has_cap self Hinv) in Hin as [? Hin].
      congruence. }
  unfold treasury.token_id, treasury.get_decimal_multiplier,
    treasury.get_notional_value.
  by rewrite get_token_metadata_eq, Hnone.
Qed.

Lemma getters_need_approval_witness :
  treasury.token_id fixtures.COIN_X fixtures.pending_X =
    Abort (MoveAbort treasury.location treasury.EUnsupportedTokenType) ∧
  treasury.get_decimal_multiplier fixtures.COIN_X fixtures.pending_X =
    Abort (MoveAbort treasury.location treasury.EUnsupportedTokenType) ∧
  treasury.get_notional_value fixtures.COIN_X fixtures.pending_X =
    Abort (MoveAbort treasury.location treasury.EUnsupportedTokenType).
Proof.
  apply (getters_need_approval fixtures.pending_X fixtures.COIN_X).
  - apply fixtures_reachable.
  - left. eexists. vm_compute. reflexivity.
Defined.

(** X8: token ids and types are in one-to-one correspondence on a treasury
    the module builds: token_id<T> returns i exactly when id_token_type_map
    maps i to T, so no two supported types share an id. *)
Theorem token_id_matches_id_map (self : treasury.BridgeTreasury) :
  treasury.reachable self →
  (∀ T i, treasury.token_id T self = Ok i ↔
          vec_map.try_get (treasury.id_token_type_map self) i = Some T) ∧
  (∀ T1 T2 i, treasury.token_id T1 self = Ok i →
              treasury.token_id T2 self = Ok i → T1 = T2).
Proof.
  intros Hreach.
  pose proof (reachable_invariant self Hreach) as Hinv.
  pose proof (reachable_ids_agree self Hreach) as Hagree.
  assert (∀ T i, treasury.token_id T self = Ok i ↔
                 vec_map.try_get (treasury.id_token_type_map self) i = Some T) as Hiff.
  { intros T i. unfold treasury.token_id. rewrite get_token_metadata_eq. split.
    - destruct (vec_map.try_get (treasury.supported_tokens self) T) as [md|] eqn:Hmd;
        [|done].
      simpl. intros [= <-]. apply try_get_elem; [apply Hinv|].
      apply Hagree. exists md. split; [by apply try_get_Some_elem | done].
    - intros Hid. apply try_get_Some_elem, Hagree in Hid as (md & Hin & <-).
      by rewrite (try_get_elem _ _ _ (treasury.supported_NoDup self Hinv) Hin). }
  split; [done|].
  intros T1 T2 i H1 H2. apply Hiff in H1, H2. congruence.
Qed.

Lemma token_id_matches_id_map_witness :
  (treasury.token_id fixtures.COIN_X fixtures.approved_X = Ok 3 ↔
   vec_map.try_get (treasury.id_token_type_map fixtures.approved_X) 3 =
     Some fixtures.COIN_X) ∧
  treasury.token_id fixtures.COIN_Y fixtures.approved_X = Ok 1.
Proof.
  destruct (token_id_matches_id_map fixtures.approved_X
    (proj2 (proj2 (proj2 fixtures_reachable)))) as [Hiff _].
  split; [apply Hiff|]. apply Hiff. vm_compute. reflexivity.
Defined.

(** ** Treasury: decimal multipliers *)

Lemma mul_u64_Ok (a b c : Z) : mul_u64 a b = Ok c → c = a * b ∧ a * b <= MAX_U64.
Proof.
  unfold mul_u64. destruct (a * b <=? MAX_U64) eqn:Hle; [|done].
  intros [= <-]. split; [done|]. by apply Z.leb_le.
Qed.

(** What the squaring loop returns is the power. *)
Lemma pow_loop_Ok (fuel : nat) (base exponent res v : Z) :
  0 <= exponent →
  math.pow_loop fuel base exponent res = Ok v →
  v = res * base ^ exponent.
Proof.
  revert base exponent res. induction fuel as [|fuel IH];
    intros base exponent res Hexp; simpl.
  - destruct (1 <=? exponent) eqn:Hle; [done|]. apply Z.leb_gt in Hle.
    intros [= <-]. replace exponent with 0 by lia. rewrite Z.pow_0_r. lia.
  - destruct (1 <=? exponent) eqn:Hle.
    2: { apply Z.leb_gt in Hle. intros [= <-]. replace exponent with 0 by lia.
         rewrite Z.pow_0_r. lia. }
    apply Z.leb_le in Hle.
    destruct (exponent mod 2 =? 0) eqn:Heven.
    + apply Z.eqb_eq in Heven. intros Hloop.
      apply bind_Ok in Hloop as (base' & Hmul & Hloop).
      apply mul_u64_Ok in Hmul as [-> _].
      apply IH in Hloop; [|apply Z.div_pos; lia]. rewrite Hloop. f_equal.
      rewrite <- Z.pow_2_r, <- Z.pow_mul_r; [| lia | apply Z.div_pos; lia].
      f_equal. pose proof (Z.div_mod exponent 2 ltac:(lia)). lia.
    + intros Hloop. apply bind_Ok in Hloop as (res' & Hmul & Hloop).
      apply mul_u64_Ok in Hmul as [-> _].
      apply IH in Hloop; [|lia]. rewrite Hloop.
      replace exponent with (Z.succ (exponent - 1)) at 2 by lia.
      rewrite Z.pow_succ_r; [|lia]. lia.
Qed.

(** A result of the loop fits a [u64] when the accumulator does. *)
Lemma pow_loop_fits (fuel : nat) (base exponent res v : Z) :
  res <= MAX_U64 →
  math.pow_loop fuel base exponent res = Ok v → v <= MAX_U64.
Proof.
  revert base exponent res. induction fuel as [|fuel IH];
    intros base exponent res Hres; simpl.
  - destruct (1 <=? exponent); [done|]. by intros [= <-].
  - destruct (1 <=? exponent); [|by intros [= <-]].
    destruct (exponent mod 2 =? 0).
    + intros Hloop. apply bind_Ok in Hloop as (base' & _ & Hloop). by eapply IH.
    + intros Hloop. apply bind_Ok in Hloop as (res' & Hmul & Hloop).
      apply mul_u64_Ok in Hmul as [-> Hfit]. by eapply IH.
Qed.

(** Whatever [pow(10, decimal)] returns is one of the powers of ten from
    10^0 to 10^19. *)
Lemma pow10_Ok (d v : Z) :
  math.pow 10 d = Ok v →
  ∃ k, 0 <= k <= 19 ∧ v = 10 ^ k ∧ (0 <= d → k = d).
Proof.
  unfold math.pow. intros Hpow.
  destruct (decide (0 <= d)) as [Hd|Hd].
  - assert (1 <= MAX_U64) as Hone by (unfold MAX_U64; lia).
    pose proof (pow_loop_fits _ _ _ _ _ Hone Hpow) as Hfit.
    apply pow_loop_Ok in Hpow; [|done]. rewrite Z.mul_1_l in Hpow.
    exists d. split; [split; [done|] | by split].
    destruct (decide (d <= 19)) as [|Hbig]; [done|]. exfalso.
    assert (10 ^ 20 <= 10 ^ d) as Hmono by (apply Z.pow_le_mono_r; lia).
    subst v. unfold MAX_U64 in Hfit.
    change (10 ^ 20) with 100000000000000000000 in Hmono. lia.
  - replace (Z.to_nat d) with 0%nat in Hpow by lia. simpl in Hpow.
    rewrite (proj2 (Z.leb_gt 1 d)) in Hpow by lia. injection Hpow as <-.
    exists 0. split; [lia|]. split; [done | lia].
Qed.

Lemma step_multipliers_pow10 (self self' : treasury.BridgeTreasury) :
  treasury.step self self' →
  treasury.multipliers_pow10 self → treasury.multipliers_pow10 self'.
Proof.
  intros Hstep Hpow.
  destruct Hstep as [ T self tc uc metadata self' effects Hcall
                    | self name token_id native notional self' effects Hcall
                    | self token_id price self' effects Hcall
                    | T self token self' effects Hcall
                    | T self amount c self' Hcall ].
  - apply register_foreign_token_Ok in Hcall as (_ & _ & _ & _ & -> & _). done.
  - destruct native.
    { rewrite approve_new_token_native in Hcall. by injection Hcall as <- _. }
    apply approve_new_token_Ok in Hcall
      as (registration & multiplier & _ & Hmul & _ & _ & -> & _).
    intros T md. simpl. rewrite elem_of_app, list_elem_of_singleton.
    intros [Hin | [= -> ->]]; [by apply (Hpow T)|]. simpl.
    destruct (pow10_Ok _ _ Hmul) as (k & Hk & -> & _). by exists k.
  - apply update_asset_notional_price_Ok in Hcall as (T & supported' & _ & Hup & -> & _).
    intros T' md' Hin. simpl in Hin.
    destruct (update_elem _ _ _ _ _ _ Hup Hin) as (md & Hmd & [-> | ->]);
      by apply (Hpow T' md).
  - apply burn_Ok in Hcall as (cap & cap' & _ & ->). done.
  - apply mint_Ok in Hcall as (cap & cap' & _ & ->). done.
Qed.

(** ** Treasury: the life of a token *)

(** X10: approval makes a token visible with the values it was approved
    with: after a successful approve_new_token on a treasury the module
    builds, token_id returns the approved id, notional_value the approved
    value, decimal_multiplier the power of ten of the registered decimals,
    and the id maps back to the type. *)
Theorem approve_then_getters (self self' : treasury.BridgeTreasury) (T : string)
    (token_id notional_value : Z) (effects : list treasury.Effect) :
  treasury.reachable self →
  treasury.approve_new_token self T token_id false notional_value =
    Ok (self', effects) →
  ∃ registration,
    treasury.waiting_room self !! T = Some registration ∧
    treasury.token_id T self' = Ok token_id ∧
    treasury.get_notional_value T self' = Ok notional_value ∧
    treasury.get_decimal_multiplier T self' =
      math.pow 10 (treasury.decimal registration) ∧
    (0 <= treasury.decimal registration →
     treasury.get_decimal_multiplier T self' =
       Ok (10 ^ treasury.decimal registration)) ∧
    vec_map.try_get (treasury.id_token_type_map self') token_id = Some T.
Proof.
  intros Hreach Hcall.
  pose proof (reachable_invariant self Hreach) as Hinv.
  apply approve_new_token_Ok in Hcall
    as (registration & multiplier & Hw & Hpow & Hfresh & Hid & -> & _).
  rewrite (treasury.waiting_own_key self Hinv _ _ Hw) in *.
  exists registration. split; [done|].
  unfold treasury.token_id, treasury.get_notional_value,
    treasury.get_decimal_multiplier.
  rewrite get_token_metadata_eq. simpl.
  rewrite try_get_app, (proj2 (try_get_None _ _) Hfresh).
  rewrite decide_True; [|done]. simpl.
  repeat split; [done | |].
  - intros Hdec. destruct (pow10_Ok _ _ Hpow) as (k & _ & -> & Hk).
    by rewrite (Hk Hdec).
  - rewrite try_get_app, (proj2 (try_get_None _ _) Hid). by rewrite decide_True.
Qed.

Lemma approve_then_getters_witness :
  ∃ registration,
    treasury.waiting_room fixtures.pending_X !! fixtures.COIN_X = Some registration ∧
    treasury.token_id fixtures.COIN_X fixtures.approved_X = Ok 3 ∧
    treasury.get_notional_value fixtures.COIN_X fixtures.approved_X = Ok 10000 ∧
    treasury.get_decimal_multiplier fixtures.COIN_X fixtures.approved_X =
      math.pow 10 (treasury.decimal registration) ∧
    (0 <= treasury.decimal registration →
     treasury.get_decimal_multiplier fixtures.COIN_X fixtures.approved_X =
       Ok (10 ^ treasury.decimal registration)) ∧
    vec_map.try_get (treasury.id_token_type_map fixtures.approved_X) 3 =
      Some fixtures.COIN_X.
Proof.
  apply (approve_then_getters fixtures.pending_X fixtures.approved_X fixtures.COIN_X
    3 10000 [ treasury.public_freeze_object fixtures.cap_X;
              treasury.emit (treasury.NewTokenEvent 3 fixtures.COIN_X false) ]).
  - apply fixtures_reachable.
  - vm_compute. reflexivity.
Defined.

(** What one call keeps: deposited caps, supported tokens with their id,
    multiplier and native flag, and the entries of the id map. *)
Lemma step_forward (self self' : treasury.BridgeTreasury) :
  treasury.step self self' →
  (∀ T, is_Some (treasury.treasuries self !! T) →
        is_Some (treasury.treasuries self' !! T)) ∧
  (∀ T metadata,
     vec_map.try_get (treasury.supported_tokens self) T = Some metadata →
     ∃ metadata',
       vec_map.try_get (treasury.supported_tokens self') T = Some metadata' ∧
       treasury.id metadata' = treasury.id metadata ∧
       treasury.decimal_multiplier metadata' = treasury.decimal_multiplier metadata ∧
       treasury.native_token metadata' = treasury.native_token metadata) ∧
  (∀ i T, vec_map.try_get (treasury.id_token_type_map self) i = Some T →
          vec_map.try_get (treasury.id_token_type_map self') i = Some T).
Proof.
  intros Hstep.
  destruct Hstep as [ T self tc uc metadata self' effects Hcall
                    | self name token_id native notional self' effects Hcall
                    | self token_id price self' effects Hcall
                    | T self token self' effects Hcall
                    | T self amount c self' Hcall ].
  - apply register_foreign_token_Ok in Hcall as (_ & _ & _ & _ & -> & _). simpl.
    repeat split; [| by eauto | done].
    intros T' HT'. rewrite lookup_insert. case_decide; by eauto.
  - destruct native.
    { rewrite approve_new_token_native in Hcall. injection Hcall as <- _.
      repeat split; by eauto. }
    apply approve_new_token_Ok in Hcall
      as (registration & multiplier & _ & _ & _ & _ & -> & _). simpl.
    repeat split; [done | |].
    + intros T md Hmd. exists md. by rewrite try_get_app, Hmd.
    + intros i T Hi. by rewrite try_get_app, Hi.
  - apply update_asset_notional_price_Ok in Hcall as (T & supported' & _ & Hup & -> & _).
    simpl. repeat split; [done | | done].
    intros T' md Hmd. rewrite (update_try_get _ _ _ _ T' Hup).
    case_decide as HT; [|by eauto]. subst T'. rewrite Hmd. simpl. by eexists.
  - apply burn_Ok in Hcall as (cap & cap' & _ & ->). simpl.
    repeat split; [| by eauto | done].
    intros T' HT'. rewrite lookup_insert. case_decide; by eauto.
  - apply mint_Ok in Hcall as (cap & cap' & _ & ->). simpl.
    repeat split; [| by eauto | done].
    intros T' HT'. rewrite lookup_insert. case_decide; by eauto.
Qed.

(** A decimal multiplier that can be read stays what it is over any
    sequence of successful calls. *)
Lemma rtc_step_decimal_multiplier (self self' : treasury.BridgeTreasury)
    (T : string) (multiplier : Z) :
  rtc treasury.step self self' →
  treasury.get_decimal_multiplier T self = Ok multiplier →
  treasury.get_decimal_multiplier T self' = Ok multiplier.
Proof.
  induction 1 as [self | self mid self' Hstep _ IH]; [done|].
  intros Hget. apply IH. clear IH.
  unfold treasury.get_decimal_multiplier in *.
  rewrite get_token_metadata_eq in *.
  destruct (vec_map.try_get (treasury.supported_tokens self) T) as [md|] eqn:Hmd;
    [|done].
  simpl in Hget. injection Hget as <-.
  destruct (step_forward _ _ Hstep) as (_ & Hkeep & _).
  destruct (Hkeep T md Hmd) as (md' & -> & _ & Heq & _). simpl. by rewrite Heq.
Qed.

(** X9: every supported token of a treasury the module builds has a decimal
    multiplier that is a power of ten between 10^0 and 10^19, so it fits a
    u64; and no later sequence of successful calls (registrations,
    approvals, price updates, mints, burns) changes it. *)
Theorem decimal_multiplier_power_of_ten (self : treasury.BridgeTreasury)
    (T : string) (multiplier : Z) :
  treasury.reachable self →
  treasury.get_decimal_multiplier T self = Ok multiplier →
  (∃ k, 0 <= k <= 19 ∧ multiplier = 10 ^ k ∧ 1 <= multiplier <= MAX_U64) ∧
  (∀ self', rtc treasury.step self self' →
            treasury.get_decimal_multiplier T self' = Ok multiplier).
Proof.
  intros Hreach Hget.
  split; [|intros self' Hsteps; by eapply rtc_step_decimal_multiplier].
  assert (treasury.multipliers_pow10 self) as Hpow.
  { clear Hget. induction Hreach
      as [ | T' self tc uc metadata self' effects _ IH Hcall
           | self name token_id native notional self' effects _ IH Hcall
           | self token_id price self' effects _ IH Hcall
           | T' self token self' effects _ IH Hcall
           | T' self amount c self' _ IH Hcall ].
    - intros T' md Hin. by apply elem_of_nil in Hin.
    - eapply step_multipliers_pow10; [by eapply treasury.step_register | done].
    - eapply step_multipliers_pow10; [by eapply treasury.step_approve | done].
    - eapply step_multipliers_pow10; [by eapply treasury.step_update | done].
    - eapply step_multipliers_pow10; [by eapply treasury.step_burn | done].
    - eapply step_multipliers_pow10; [by eapply treasury.step_mint | done]. }
  unfold treasury.get_decimal_multiplier in Hget.
  rewrite get_token_metadata_eq in Hget.
  destruct (vec_map.try_get (treasury.supported_tokens self) T) as [md|] eqn:Hmd;
    [|done].
  simpl in Hget. injection Hget as <-.
  destruct (Hpow T md (try_get_Some_elem _ _ _ Hmd)) as (k & Hk & Heq).
  exists k. split; [done|]. split; [done|]. rewrite Heq.
  assert (10 ^ 0 <= 10 ^ k) by (apply Z.pow_le_mono_r; lia).
  assert (10 ^ k <= 10 ^ 19) by (apply Z.pow_le_mono_r; lia).
  unfold MAX_U64. change (10 ^ 0) with 1 in *.
  change (10 ^ 19) with 10000000000000000000 in *. lia.
Qed.

Lemma decimal_multiplier_power_of_ten_witness :
  (∃ k, 0 <= k <= 19 ∧ 1000000 = 10 ^ k ∧ 1 <= 1000000 <= MAX_U64) ∧
  (∀ self', rtc treasury.step fixtures.approved_X self' →
            treasury.get_decimal_multiplier fixtures.COIN_X self' = Ok 1000000).
Proof.
  apply (decimal_multiplier_power_of_ten fixtures.approved_X fixtures.COIN_X 1000000).
  - apply fixtures_reachable.
  - vm_compute. reflexivity.
Defined.

(** X11: the registry only moves forward.  Over any sequence of successful
    calls a deposited treasury cap stays deposited, a supported token stays
    supported with the same id, decimal multiplier and native flag (only its
    notional value can change), and an id keeps mapping to the same type. *)
Theorem registry_moves_forward (self self' : treasury.BridgeTreasury) :
  rtc treasury.step self self' →
  (∀ T, is_Some (treasury.treasuries self !! T) →
        is_Some (treasury.treasuries self' !! T)) ∧
  (∀ T metadata,
     vec_map.try_get (treasury.supported_tokens self) T = Some metadata →
     ∃ metadata',
       vec_map.try_get (treasury.supported_tokens self') T = Some metadata' ∧
       treasury.id metadata' = treasury.id metadata ∧
       treasury.decimal_multiplier metadata' = treasury.decimal_multiplier metadata ∧
       treasury.native_token metadata' = treasury.native_token metadata) ∧
  (∀ i T, vec_map.try_get (treasury.id_token_type_map self) i = Some T →
          vec_map.try_get (treasury.id_token_type_map self') i = Some T).
Proof.
  induction 1 as [self | self mid self' Hstep _ IH].
  - repeat split; by eauto.
  - destruct (step_forward _ _ Hstep) as (Hcap & Hsup & Hid).
    destruct IH as (Hcap' & Hsup' & Hid').
    repeat split.
    + intros T HT. by apply Hcap', Hcap.
    + intros T md Hmd. destruct (Hsup T md Hmd) as (md1 & Hmd1 & E1 & E2 & E3).
      destruct (Hsup' T md1 Hmd1) as (md2 & Hmd2 & F1 & F2 & F3).
      exists md2. repeat split; congruence.
    + intros i T Hi. by apply Hid', Hid.
Qed.

Lemma registry_moves_forward_witness :
  (∀ T, is_Some (treasury.treasuries fixtures.approved_Y !! T) →
        is_Some (treasury.treasuries fixtures.approved_X !! T)) ∧
  (∀ T metadata,
     vec_map.try_get (treasury.supported_tokens fixtures.approved_Y) T = Some metadata →
     ∃ metadata',
       vec_map.try_get (treasury.supported_tokens fixtures.approved_X) T =
         Some metadata' ∧
       treasury.id metadata' = treasury.id metadata ∧
       treasury.decimal_multiplier metadata' = treasury.decimal_multiplier metadata ∧
       treasury.native_token metadata' = treasury.native_token metadata) ∧
  (∀ i T, vec_map.try_get (treasury.id_token_type_map fixtures.approved_Y) i = Some T →
          vec_map.try_get (treasury.id_token_type_map fixtures.approved_X) i = Some T).
Proof.
  apply (registry_moves_forward fixtures.approved_Y fixtures.approved_X).
  apply rtc_l with fixtures.pending_X.
  - eapply treasury.step_register. apply is_ok_commit. vm_compute. reflexivity.
  - apply rtc_once. eapply treasury.step_approve.
    apply is_ok_commit. vm_compute. reflexivity.
Defined.

(** X12: a token type is registered at most once, for good.  Once a treasury
    cap for T is deposited, no later call of register_foreign_token for T
    returns, whatever happened in between, and one that passes the supply
    and upgrade-cap checks aborts with EFieldAlreadyExists. *)
Theorem register_foreign_token_once (self self' : treasury.BridgeTreasury)
    (T : string) (tc : coin.TreasuryCap) (uc : package.UpgradeCap)
    (metadata : coin.CoinMetadata) :
  is_Some (treasury.treasuries self !! T) →
  rtc treasury.step self self' →
  is_ok (treasury.register_foreign_token T self' tc uc metadata) = false ∧
  (coin.total_supply tc = 0 →
   address.from_ascii_bytes (type_name.get_address T) =
     Ok (package.upgrade_package uc) →
   treasury.register_foreign_token T self' tc uc metadata =
     Abort (MoveAbort dynamic_field.location dynamic_field.EFieldAlreadyExists)).
Proof.
  intros Hcap Hsteps.
  assert (is_Some (treasury.treasuries self' !! T)) as [cap' Hcap'].
  { clear tc uc metadata. induction Hsteps as [self | self mid self' Hstep _ IH];
      [done|].
    apply IH. by apply (proj1 (step_forward _ _ Hstep)). }
  split.
  - destruct (treasury.register_foreign_token T self' tc uc metadata)
      as [[s effects]|e] eqn:Hcall; [|done].
    apply register_foreign_token_Ok in Hcall as (_ & _ & _ & Hnone & _). congruence.
  - intros Hsupply Haddr. unfold treasury.register_foreign_token.
    rewrite Hsupply, Haddr. simpl. rewrite Z.eqb_refl. simpl.
    unfold object_bag.add, bag.add, type_name.into_string.
    destruct (treasury.waiting_room self' !! T); simpl; [done|].
    by rewrite Hcap'.
Qed.

Lemma register_foreign_token_once_witness :
  is_ok (treasury.register_foreign_token fixtures.COIN_Y fixtures.approved_X
           fixtures.fresh_cap fixtures.cap_Y fixtures.eight_decimals) = false ∧
  treasury.register_foreign_token fixtures.COIN_Y fixtures.approved_X
      fixtures.fresh_cap fixtures.cap_Y fixtures.eight_decimals =
    Abort (MoveAbort dynamic_field.location dynamic_field.EFieldAlreadyExists).
Proof.
  destruct (register_foreign_token_once fixtures.approved_Y fixtures.approved_X
    fixtures.COIN_Y fixtures.fresh_cap fixtures.cap_Y fixtures.eight_decimals)
    as [Hnever Habort].
  - eexists. vm_compute. reflexivity.
  - apply rtc_l with fixtures.pending_X.
    + eapply treasury.step_register. apply is_ok_commit. vm_compute. reflexivity.
    + apply rtc_once. eapply treasury.step_approve.
      apply is_ok_commit. vm_compute. reflexivity.
  - split; [exact Hnever|]. apply Habort; [reflexivity|]. vm_compute. reflexivity.
Defined.

(** ** Treasury: minting and burning *)

(** X13: burning a coin right after it was minted gives back the treasury
    as it was: the coin carries the requested amount, and the burn succeeds
    and restores the supply and everything else. *)
Theorem mint_then_burn (T : string) (self self' : treasury.BridgeTreasury)
    (cap : coin.TreasuryCap) (amount : Z) (c : coin.Coin) :
  treasury.treasuries self !! T = Some cap →
  0 <= coin.total_supply cap →
  treasury.mint T self amount = Ok (c, self') →
  coin.value c = amount ∧
  treasury.burn T self' c = Ok (self, []).
Proof.
  intros Hcap Hsupply Hmint.
  unfold treasury.mint, object_bag.borrow_mut in Hmint. rewrite Hcap in Hmint.
  simpl in Hmint. unfold coin.mint in Hmint.
  destruct (amount <? MAX_U64 - coin.total_supply cap); simpl in Hmint; [|done].
  injection Hmint as <- <-. split; [done|].
  unfold treasury.burn, object_bag.borrow_mut. simpl.
  rewrite lookup_insert_eq. simpl. unfold coin.burn. simpl.
  rewrite (proj2 (Z.leb_le _ _)) by lia. simpl.
  rewrite insert_insert_eq.
  replace (coin.total_supply cap + amount - amount) with (coin.total_supply cap)
    by lia.
  destruct self as [caps supported ids waiting]. destruct cap as [supply].
  simpl in *. by rewrite (insert_id caps T _ Hcap).
Qed.

Lemma mint_then_burn_witness :
  coin.value {| coin.value := 5 |} = 5 ∧
  treasury.burn fixtures.COIN_X
    (fixtures.after fixtures.approved_X
       (Ok ({| treasury.treasuries :=
                 <[fixtures.COIN_X := {| coin.total_supply := 0 + 5 |}]>
                   (treasury.treasuries fixtures.approved_X);
               treasury.supported_tokens :=
                 treasury.supported_tokens fixtures.approved_X;
               treasury.id_token_type_map :=
                 treasury.id_token_type_map fixtures.approved_X;
               treasury.waiting_room := treasury.waiting_room fixtures.approved_X |},
            [])))
    {| coin.value := 5 |} = Ok (fixtures.approved_X, []).
Proof.
  apply (mint_then_burn fixtures.COIN_X fixtures.approved_X _ fixtures.fresh_cap 5).
  - vm_compute. reflexivity.
  - simpl. lia.
  - vm_compute. reflexivity.
Defined.

(** ** Treasury: price updates *)

Lemma update_overwrite {K V} `{EqDecision K} (l l1 : vec_map.VecMap K V)
    (key : K) (f g : V → V) :
  (∀ v, g (f v) = g v) →
  vec_map.update l key f = Ok l1 →
  vec_map.update l1 key g = vec_map.update l key g.
Proof.
  intros Hgf. revert l1. induction l as [|[k v] l IH]; intros l1.
  - by rewrite update_nil.
  - rewrite !update_cons. destruct (decide (k = key)) as [->|Hk].
    + intros [= <-]. rewrite update_cons, decide_True; [|done]. by rewrite Hgf.
    + destruct (vec_map.update l key f) as [r|] eqn:Hr; [|done].
      intros [= <-]. rewrite update_cons, decide_False; [|done].
      by rewrite (IH r eq_refl).
Qed.

Lemma update_commute {K V} `{EqDecision K} (l l1 l12 : vec_map.VecMap K V)
    (k1 k2 : K) (f g : V → V) :
  k1 ≠ k2 →
  vec_map.update l k1 f = Ok l1 →
  vec_map.update l1 k2 g = Ok l12 →
  ∃ l2, vec_map.update l k2 g = Ok l2 ∧ vec_map.update l2 k1 f = Ok l12.
Proof.
  intros Hne. revert l1 l12. induction l as [|[k v] l IH]; intros l1 l12.
  - by rewrite update_nil.
  - rewrite !update_cons. destruct (decide (k = k1)) as [->|Hk1].
    + intros [= <-]. rewrite update_cons, !decide_False; [|done|done].
      destruct (vec_map.update l k2 g) as [r|] eqn:Hr; [|done].
      intros [= <-]. eexists. split; [done|].
      by rewrite update_cons, decide_True.
    + destruct (vec_map.update l k1 f) as [r1|] eqn:Hr1; [|done].
      intros [= <-]. rewrite update_cons.
      destruct (decide (k = k2)) as [->|Hk2].
      * intros [= <-]. eexists. split; [done|].
        rewrite update_cons, decide_False; [|done]. by rewrite Hr1.
      * destruct (vec_map.update r1 k2 g) as [r12|] eqn:Hr12; [|done].
        intros [= <-].
        destruct (IH r1 r12 eq_refl Hr12) as (l2 & Hl2 & Hl2').
        rewrite Hl2. eexists. split; [done|].
        rewrite update_cons, decide_False; [|done]. by rewrite Hl2'.
Qed.

(** X14: the last price update wins: after a successful update of a token
    id, a second update of the same id behaves exactly as if the first had
    never happened (same treasury, same event). *)
Theorem update_asset_notional_price_overwrites (self self1 : treasury.BridgeTreasury)
    (token_id price1 price2 : Z) (effects : list treasury.Effect) :
  treasury.update_asset_notional_price self token_id price1 = Ok (self1, effects) →
  treasury.update_asset_notional_price self1 token_id price2 =
    treasury.update_asset_notional_price self token_id price2.
Proof.
  intros (T & supported' & Hid & Hup & -> & _)%update_asset_notional_price_Ok.
  unfold treasury.update_asset_notional_price. simpl. rewrite Hid. simpl.
  by rewrite (update_overwrite _ _ _ (treasury.set_notional_value price1)
                (treasury.set_notional_value price2) (fun v => eq_refl) Hup).
Qed.

Lemma update_asset_notional_price_overwrites_witness :
  treasury.update_asset_notional_price
    (fixtures.after fixtures.approved_X
       (treasury.update_asset_notional_price fixtures.approved_X 3 11000)) 3 12000 =
  treasury.update_asset_notional_price fixtures.approved_X 3 12000.
Proof.
  apply (update_asset_notional_price_overwrites fixtures.approved_X _ 3 11000 12000
    [treasury.emit (treasury.UpdateTokenPriceEvent 3 11000)]).
  vm_compute. reflexivity.
Defined.

(** X15: price updates of different token ids commute on a treasury the
    module builds: doing them in the other order succeeds as well and ends in
    the same treasury. *)
Theorem update_asset_notional_price_commutes
    (self self1 self12 : treasury.BridgeTreasury) (id1 id2 price1 price2 : Z)
    (effects1 effects2 : list treasury.Effect) :
  treasury.reachable self →
  id1 ≠ id2 →
  treasury.update_asset_notional_price self id1 price1 = Ok (self1, effects1) →
  treasury.update_asset_notional_price self1 id2 price2 = Ok (self12, effects2) →
  ∃ self2,
    treasury.update_asset_notional_price self id2 price2 =
      Ok (self2, [treasury.emit (treasury.UpdateTokenPriceEvent id2 price2)]) ∧
    treasury.update_asset_notional_price self2 id1 price1 =
      Ok (self12, [treasury.emit (treasury.UpdateTokenPriceEvent id1 price1)]).
Proof.
  intros Hreach Hne.
  intros (T1 & sup1 & Hid1 & Hup1 & -> & _)%update_asset_notional_price_Ok.
  intros (T2 & sup12 & Hid2 & Hup2 & -> & _)%update_asset_notional_price_Ok.
  simpl in *.
  assert (T1 ≠ T2) as HT.
  { intros <-.
    pose proof (reachable_ids_agree self Hreach) as Hagree.
    pose proof (treasury.supported_NoDup self (reachable_invariant self Hreach))
      as Hnd.
    apply try_get_Some_elem, Hagree in Hid1 as (md1 & Hin1 & E1).
    apply try_get_Some_elem, Hagree in Hid2 as (md2 & Hin2 & E2).
    apply (try_get_elem _ _ _ Hnd) in Hin1, Hin2. congruence. }
  destruct (update_commute _ _ _ _ _ _ _ HT Hup1 Hup2) as (sup2 & Hs2 & Hs21).
  eexists. split.
  - apply update_asset_notional_price_Ok. by exists T2, sup2.
  - apply update_asset_notional_price_Ok. by exists T1, sup12.
Qed.

Lemma update_asset_notional_price_commutes_witness :
  ∃ self2,
    treasury.update_asset_notional_price fixtures.approved_X 3 12000 =
      Ok (self2, [treasury.emit (treasury.UpdateTokenPriceEvent 3 12000)]) ∧
    treasury.update_asset_notional_price self2 1 500 =
      Ok (fixtures.after
            (fixtures.after fixtures.approved_X
               (treasury.update_asset_notional_price fixtures.approved_X 1 500))
            (treasury.update_asset_notional_price
               (fixtures.after fixtures.approved_X
                  (treasury.update_asset_notional_price fixtures.approved_X 1 500))
               3 12000),
          [treasury.emit (treasury.UpdateTokenPriceEvent 1 500)]).
Proof.
  apply (update_asset_notional_price_commutes fixtures.approved_X
    (fixtures.after fixtures.approved_X
       (treasury.update_asset_notional_price fixtures.approved_X 1 500))
    _ 1 3 500 12000
    [treasury.emit (treasury.UpdateTokenPriceEvent 1 500)]
    [treasury.emit (treasury.UpdateTokenPriceEvent 3 12000)]).
  - apply fixtures_reachable.
  - lia.
  - vm_compute. reflexivity.
  - vm_compute. reflexivity.
Defined.

(** ** The first revision of the treasury *)

(** With BTC among the supported tokens no approval of the first revision
    returns. *)
Lemma approve_new_token_v1_blocked (T : string) (self : treasury_v1.BridgeTreasury)
    (token_id : Z) :
  treasury_v1.BTC ∈ vec_map.keys (treasury_v1.supported_tokens self) →
  is_ok (treasury_v1.approve_new_token T self token_id false) = false.
Proof.
  intros HBTC. unfold treasury_v1.approve_new_token, bag.remove. simpl.
  destruct (treasury_v1.waiting_room self !! T) as [registration|]; simpl; [|done].
  destruct (math.pow 10 _) as [multiplier|]; simpl; [|done].
  by rewrite (insert_present _ _ _ HBTC).
Qed.

(** X16: in the first revision approve_new_token files the metadata of
    whatever token it approves under the key of BTC.  So after one approval
    the approved type itself, unless it is BTC, is still unsupported for the
    getters' lookup, and no further approval of any token ever returns,
    because the key of BTC is taken. *)
Theorem approve_new_token_v1_only_once (T : string)
    (self self' : treasury_v1.BridgeTreasury) (token_id : Z)
    (effects : list treasury.Effect) :
  treasury_v1.approve_new_token T self token_id false = Ok (self', effects) →
  (∃ metadata,
     vec_map.try_get (treasury_v1.supported_tokens self') treasury_v1.BTC =
       Some metadata ∧
     treasury.id metadata = token_id) ∧
  (T ≠ treasury_v1.BTC →
   vec_map.try_get (treasury_v1.supported_tokens self) T = None →
   treasury_v1.get_token_metadata T self' =
     Abort (MoveAbort treasury.location treasury.EUnsupportedTokenType)) ∧
  (∀ later,
     treasury_v1.supported_tokens later = treasury_v1.supported_tokens self' →
     ∀ T' token_id',
       is_ok (treasury_v1.approve_new_token T' later token_id' false) = false).
Proof.
  intros Hcall.
  assert (∃ metadata,
    treasury.id metadata = token_id ∧
    (treasury_v1.BTC ∉ vec_map.keys (treasury_v1.supported_tokens self)) ∧
    treasury_v1.supported_tokens self' =
      treasury_v1.supported_tokens self ++ [(treasury_v1.BTC, metadata)])
    as (metadata & Hmd & Hfresh & Hsup).
  { unfold treasury_v1.approve_new_token, bag.remove in Hcall. simpl in Hcall.
    destruct (treasury_v1.waiting_room self !! T) as [registration|];
      simpl in Hcall; [|done].
    destruct (math.pow 10 _) as [multiplier|]; simpl in Hcall; [|done].
    destruct (vec_map.insert (treasury_v1.supported_tokens self) _ _)
      as [supported'|] eqn:Hs; simpl in Hcall; [|done].
    destruct (vec_map.insert (treasury_v1.id_token_type_map self) _ _) as [ids'|];
      simpl in Hcall; [|done].
    destruct (object_bag.add _ _ _) as [treasuries'|]; simpl in Hcall; [|done].
    injection Hcall as <- _. simpl. apply insert_Ok in Hs as [Hfresh ->].
    eexists. split; [|split; [done | done]]. done. }
  split; [|split].
  - exists metadata. split; [|done].
    rewrite Hsup, try_get_app, (proj2 (try_get_None _ _) Hfresh).
    by rewrite decide_True.
  - intros HT Hnone. unfold treasury_v1.get_token_metadata.
    rewrite Hsup, try_get_app, Hnone. by rewrite decide_False.
  - intros later Hlater T' token_id'. apply approve_new_token_v1_blocked.
    rewrite Hlater, Hsup, keys_app. apply elem_of_app. right.
    apply list_elem_of_here.
Qed.

Lemma approve_new_token_v1_only_once_witness :
  (∃ metadata,
     vec_map.try_get (treasury_v1.supported_tokens fixtures.v1_approved_X)
       treasury_v1.BTC = Some metadata ∧
     treasury.id metadata = 3) ∧
  treasury_v1.get_token_metadata fixtures.COIN_X fixtures.v1_approved_X =
    Abort (MoveAbort treasury.location treasury.EUnsupportedTokenType) ∧
  is_ok (treasury_v1.approve_new_token fixtures.COIN_Y fixtures.v1_approved_X 1 false) =
    false.
Proof.
  destruct (approve_new_token_v1_only_once fixtures.COIN_X fixtures.v1_pending_X
    fixtures.v1_approved_X 3
    [ treasury.public_freeze_object fixtures.cap_X;
      treasury.emit (treasury.NewTokenEvent 3 fixtures.COIN_X false) ])
    as (Hkey & Hhidden & Hblocked).
  - vm_compute. reflexivity.
  - split; [exact Hkey|]. split.
    + apply Hhidden; [|reflexivity].
      apply (bool_decide_unpack _). vm_compute. reflexivity.
    + apply (Hblocked fixtures.v1_approved_X eq_refl).
Defined.

(** ** The SUI coin *)

(** X17: sui::new returns only for the system address at epoch 0, and then
    hands back exactly the total supply, 10 billion SUI of 10^9 mist each,
    which the supply can take without overflow; any other sender aborts with
    ENotSystemAddress, whatever the epoch, and the system address after
    epoch 0 aborts with EAlreadyMinted. *)
Theorem sui_new_total_supply (ctx : tx_context.TxContext) :
  (tx_context.sender ctx ≠ 0 →
   sui.new ctx = Abort (MoveAbort sui.location sui.ENotSystemAddress)) ∧
  (tx_context.sender ctx = 0 → tx_context.epoch ctx ≠ 0 →
   sui.new ctx = Abort (MoveAbort sui.location sui.EAlreadyMinted)) ∧
  (tx_context.sender ctx = 0 → tx_context.epoch ctx = 0 →
   sui.new ctx =
     Ok (sui.TOTAL_SUPPLY_SUI * sui.MIST_PER_SUI, {| coin.decimals := 9 |}) ∧
   sui.TOTAL_SUPPLY_SUI * sui.MIST_PER_SUI = sui.TOTAL_SUPPLY_MIST ∧
   sui.TOTAL_SUPPLY_MIST < MAX_U64) ∧
  (is_ok (sui.new ctx) = true ↔
   tx_context.sender ctx = 0 ∧ tx_context.epoch ctx = 0).
Proof.
  unfold sui.new.
  destruct (Z.eqb_spec (tx_context.sender ctx) 0) as [Hs|Hs];
    destruct (Z.eqb_spec (tx_context.epoch ctx) 0) as [He|He]; simpl.
  - repeat split; try done.
  - repeat split; try done. by intros [_ ?].
  - repeat split; try done. by intros [? _].
  - repeat split; try done. by intros [? _].
Qed.

Lemma sui_new_total_supply_witness :
  sui.new fixtures.system_ctx =
    Ok (sui.TOTAL_SUPPLY_SUI * sui.MIST_PER_SUI, {| coin.decimals := 9 |}) ∧
  sui.TOTAL_SUPPLY_SUI * sui.MIST_PER_SUI = sui.TOTAL_SUPPLY_MIST ∧
  sui.TOTAL_SUPPLY_MIST < MAX_U64.
Proof.
  apply (proj1 (proj2 (proj2 (sui_new_total_supply fixtures.system_ctx)))); reflexivity.
Defined.

(** ** Treasury: the three states of a token type *)

(** A deposited cap belongs to a type that waits or is supported. *)
Lemma reachable_caps_registered (self : treasury.BridgeTreasury) :
  treasury.reachable self →
  ∀ T, is_Some (treasury.treasuries self !! T) →
       is_Some (treasury.waiting_room self !! T) ∨
       T ∈ vec_map.keys (treasury.supported_tokens self).
Proof.
  induction 1 as [ | T0 self tc uc metadata self' effects Hreach IH Hcall
                   | self name token_id native notional self' effects Hreach IH Hcall
                   | self token_id price self' effects Hreach IH Hcall
                   | T0 self token self' effects Hreach IH Hcall
                   | T0 self amount c self' Hreach IH Hcall ]; intros T.
  - simpl. rewrite lookup_empty. by intros [? ?].
  - apply register_foreign_token_Ok in Hcall as (_ & _ & _ & _ & -> & _). simpl.
    rewrite !lookup_insert. case_decide; [by eauto | apply IH].
  - destruct native.
    { rewrite approve_new_token_native in Hcall. injection Hcall as <- _. apply IH. }
    pose proof (reachable_invariant self Hreach) as Hinv.
    apply approve_new_token_Ok in Hcall
      as (registration & multiplier & Hw & _ & _ & _ & -> & _). simpl.
    rewrite (treasury.waiting_own_key self Hinv _ _ Hw).
    intros HT. rewrite keys_app, elem_of_app, list_elem_of_singleton.
    rewrite lookup_delete. case_decide as Hname; [by right; right|].
    destruct (IH T HT) as [Hwait | Hsup]; [by left | by right; left].
  - apply update_asset_notional_price_Ok in Hcall as (T1 & supported' & _ & Hup & -> & _).
    simpl. rewrite (update_keys _ _ _ _ Hup). apply IH.
  - apply burn_Ok in Hcall as (cap & cap' & Hcap & ->). simpl.
    rewrite lookup_insert. case_decide; [subst; intros _; apply IH; by eauto | apply IH].
  - apply mint_Ok in Hcall as (cap & cap' & Hcap & ->). simpl.
    rewrite lookup_insert. case_decide; [subst; intros _; apply IH; by eauto | apply IH].
Qed.

(** X18: on a treasury the module builds every token type is in exactly one
    of three states: unregistered (no treasury cap, not waiting, not
    supported), waiting (cap deposited, pending registration, not supported)
    or supported (cap deposited, no pending registration); so mint and burn
    find a cap exactly for the types that were registered, approved or
    not. *)
Theorem token_type_states (self : treasury.BridgeTreasury) (T : string) :
  treasury.reachable self →
  (treasury.treasuries self !! T = None ∧
   treasury.waiting_room self !! T = None ∧
   vec_map.try_get (treasury.supported_tokens self) T = None) ∨
  (is_Some (treasury.treasuries self !! T) ∧
   is_Some (treasury.waiting_room self !! T) ∧
   vec_map.try_get (treasury.supported_tokens self) T = None) ∨
  (is_Some (treasury.treasuries self !! T) ∧
   treasury.waiting_room self !! T = None ∧
   is_Some (vec_map.try_get (treasury.supported_tokens self) T)).
Proof.
  intros Hreach.
  pose proof (reachable_invariant self Hreach) as Hinv.
  pose proof (reachable_caps_registered self Hreach T) as Hcaps.
  destruct (treasury.treasuries self !! T) as [cap|] eqn:Hcap.
  - right. destruct (Hcaps ltac:(by eauto)) as [Hwait | Hsup].
    + left. repeat split; [by eauto | done |].
      by apply try_get_None, (treasury.waiting_not_supported self Hinv).
    + right. repeat split; [by eauto | | by apply try_get_is_Some].
      destruct (treasury.waiting_room self !! T) as [r|] eqn:Hw; [|done].
      exfalso. by apply (treasury.waiting_not_supported self Hinv T); eauto.
  - left. split; [done|]. split.
    + destruct (treasury.waiting_room self !! T) as [r|] eqn:Hw; [|done].
      destruct (treasury.waiting_has_cap self Hinv T) as [? Hc]; [by eauto|].
      congruence.
    + apply try_get_None. intros Hin.
      apply (treasury.supported_has_cap self Hinv) in Hin as [? Hc]. congruence.
Qed.

Lemma token_type_states_witness :
  (treasury.treasuries fixtures.pending_X !! fixtures.COIN_X = None ∧
   treasury.waiting_room fixtures.pending_X !! fixtures.COIN_X = None ∧
   vec_map.try_get (treasury.supported_tokens fixtures.pending_X) fixtures.COIN_X =
     None) ∨
  (is_Some (treasury.treasuries fixtures.pending_X !! fixtures.COIN_X) ∧
   is_Some (treasury.waiting_room fixtures.pending_X !! fixtures.COIN_X) ∧
   vec_map.try_get (treasury.supported_tokens fixtures.pending_X) fixtures.COIN_X =
     None) ∨
  (is_Some (treasury.treasuries fixtures.pending_X !! fixtures.COIN_X) ∧
   treasury.waiting_room fixtures.pending_X !! fixtures.COIN_X = None ∧
   is_Some (vec_map.try_get (treasury.supported_tokens fixtures.pending_X)
              fixtures.COIN_X)).
Proof.
  apply (token_type_states fixtures.pending_X fixtures.COIN_X).
  apply fixtures_reachable.
Defined.

(** ** Committee: more signatures than members *)

Lemma NoDup_incl_length {A} (l k : list A) :
  NoDup l → (∀ x, x ∈ l → x ∈ k) → (length l ≤ length k)%nat.
Proof.
  intros Hnd Hincl. apply submseteq_length. by apply NoDup_submseteq.
Qed.

(** X19: a list with more signatures than the committee has members is never
    accepted, whatever the signatures and the threshold are. *)
Theorem verify_signatures_more_than_members (recover : ecdsa_k1.ecrecover)
    (self : committee.BridgeCommittee) (m : message.BridgeMessage)
    (signatures : list (list Z)) :
  (length (committee.pub_keys self) < length signatures)%nat →
  committee.verify_signatures recover self m signatures ≠ Ok tt.
Proof.
  intros Hmore Hok.
  apply verify_signatures_Ok_inv in Hok as (required & keys & _ & Hrec & Hnd & Hmem & _).
  unfold committee.recovers_to in Hrec.
  pose proof (Forall2_length _ _ _ Hrec) as Hlen.
  assert (length keys ≤ length (vec_map.keys (committee.pub_keys self)))%nat as Hle.
  { apply NoDup_incl_length; [done|]. intros key Hkey.
    rewrite Forall_forall in Hmem. by apply contains_true, Hmem. }
  unfold vec_map.keys in Hle. rewrite length_fmap in Hle. lia.
Qed.

Lemma verify_signatures_more_than_members_witness :
  committee.verify_signatures fixtures.recover_as_key committee.setup_test
    fixtures.token_message
    [committee.test_key_1; committee.test_key_2; fixtures.stranger] ≠ Ok tt.
Proof.
  apply (verify_signatures_more_than_members fixtures.recover_as_key
    committee.setup_test fixtures.token_message
    [committee.test_key_1; committee.test_key_2; fixtures.stranger]).
  simpl. lia.
Defined.
